(** * p-schema: rule-string compiler, validation runner and sanitizer

    A shallow embedding of [src/index.ts] and [src/sanitize.ts], and the
    properties of its specification.

    - [Js]: the string and array primitives the sources call.
    - [JsRuntime]: the primitives of the host on numbers and patterns
      ([parseInt], [Number], number formatting, [new RegExp]), taken as
      an interface.
    - [ChainBuilder]: the chain of the validation library, as
      [check(field)] and the methods called on it build it.
    - [Index]: [basicValidators], [applyParamRule], [makeValidators],
      [validate].
    - [Runner]: how a compiled chain runs against a record.
    - [Regex], [Sanitize]: the patterns of [clean], [clean] and
      [deepClean].
    - [IntegerHost]: a host to evaluate examples on.

    A value of type [string] stands for the JavaScript string with the
    same code units (all below 256). *)

From Stdlib Require Import String Ascii List ZArith Bool Lia Arith Permutation.
Import ListNotations.
Open Scope string_scope.
Set Warnings "-register-all".

(* ================================================================== *)
(** ** JavaScript string and array primitives *)

Module Js.

(** [s.indexOf(c)] for a one-character needle; [None] is [-1]. *)
Fixpoint indexOf (c : ascii) (s : string) : option nat :=
  match s with
  | EmptyString => None
  | String a s' =>
      if Ascii.eqb a c then Some 0 else option_map S (indexOf c s')
  end.

(** [s.includes(c)] for a one-character needle. *)
Definition contains (c : ascii) (s : string) : bool :=
  match indexOf c s with Some _ => true | None => false end.

(** [s.substring(0, n)]. *)
Fixpoint take (n : nat) (s : string) : string :=
  match n, s with
  | S n', String a s' => String a (take n' s')
  | _, _ => EmptyString
  end.

(** [s.substring(n)]. *)
Fixpoint drop (n : nat) (s : string) : string :=
  match n, s with
  | S n', String _ s' => drop n' s'
  | _, _ => s
  end.

(** [s.split(c)] for a one-character separator: never empty. *)
Fixpoint split (c : ascii) (s : string) : list string :=
  match s with
  | EmptyString => [EmptyString]
  | String a s' =>
      if Ascii.eqb a c then EmptyString :: split c s'
      else match split c s' with
           | h :: t => String a h :: t
           | [] => [String a EmptyString]
           end
  end.

(** [xs.includes(x)] on an array of strings. *)
Definition includes (x : string) (xs : list string) : bool :=
  existsb (String.eqb x) xs.

(** [xs.join(sep)]. *)
Definition join (sep : string) (xs : list string) : string :=
  String.concat sep xs.

(** White space of [String.prototype.trim] and of the pattern class
    [\s], among the code units below 256: TAB, LF, VT, FF, CR, SP and
    NBSP. *)
Definition isSpace (a : ascii) : bool :=
  let n := nat_of_ascii a in
  (((9 <=? n) && (n <=? 13)) || (n =? 32) || (n =? 160))%nat.

Fixpoint trimStart (s : string) : string :=
  match s with
  | EmptyString => EmptyString
  | String a s' => if isSpace a then trimStart s' else s
  end.

Fixpoint trimEnd (s : string) : string :=
  match s with
  | EmptyString => EmptyString
  | String a s' =>
      match trimEnd s' with
      | EmptyString => if isSpace a then EmptyString
                       else String a EmptyString
      | r => String a r
      end
  end.

(** [s.trim()]. *)
Definition trim (s : string) : string := trimEnd (trimStart s).

(** [s.startsWith(c)] and [s.endsWith(c)] for a one-character
    argument. *)
Definition startsWith (c : ascii) (s : string) : bool :=
  match s with
  | String a _ => Ascii.eqb a c
  | EmptyString => false
  end.

Fixpoint endsWith (c : ascii) (s : string) : bool :=
  match s with
  | EmptyString => false
  | String a EmptyString => Ascii.eqb a c
  | String _ s' => endsWith c s'
  end.

(** [s.slice(1, -1)]. *)
Definition slice_1_m1 (s : string) : string :=
  take (String.length s - 2) (drop 1 s).

End Js.

(* ================================================================== *)
(** ** Host primitives on numbers and patterns *)

(** JavaScript numbers are IEEE doubles; the sources only parse them out
    of rule parameters and print them back into messages.  These
    primitives of the host are taken as an interface. *)
Class JsRuntime := {
  num : Type;
  (** [parseInt(s, 10)] *)
  parseInt10 : string -> num;
  (** [Number(s)] *)
  Number : string -> num;
  (** [String(n)], also what a template literal prints *)
  numToString : num -> string;
  (** [isNaN(n)] *)
  numIsNaN : num -> bool;
  (** whether [new RegExp(pattern)] returns (it throws a [SyntaxError]
      otherwise) *)
  RegExp_ok : string -> bool
}.

(** Exceptions a call of [makeValidators] can end in. *)
Inductive js_error : Type :=
| TypeError
| SyntaxError.

Inductive result (A : Type) : Type :=
| Ok (a : A)
| Throw (e : js_error).
Arguments Ok {A} a.
Arguments Throw {A} e.

Definition bind {A B : Type} (r : result A) (k : A -> result B)
  : result B :=
  match r with
  | Ok a => k a
  | Throw e => Throw e
  end.

Notation "x <- r ;; k" := (bind r (fun x => k))
  (at level 61, r at next level, right associativity).

(** [xs.forEach(x => { acc = f(acc, x) })] where [f] may throw. *)
Fixpoint forEach {A S : Type} (f : S -> A -> result S) (xs : list A)
  (acc : S) : result S :=
  match xs with
  | [] => Ok acc
  | x :: xs' => acc' <- f acc x ;; forEach f xs' acc'
  end.

Section Values.

Context {RT : JsRuntime}.

(** JSON-like data: what a request body, and the argument of
    [deepClean], is made of.  An object lists its own enumerable
    properties in [Object.entries] order. *)
Inductive value : Type :=
| VUndefined
| VNull
| VBool (b : bool)
| VNum (n : num)
| VStr (s : string)
| VArr (items : list value)
| VObj (props : list (string * value)).

(** A record ([req.body]): the properties of one object. *)
Definition record : Type := list (string * value).

(** The own property [key] of [body]: [undefined] when the body does
    not own the key. *)
Fixpoint get (key : string) (body : record) : value :=
  match body with
  | [] => VUndefined
  | (k, v) :: rest => if String.eqb k key then v else get key rest
  end.

(** [body[key] = v]: overwrite in place, or append a new property. *)
Fixpoint set (key : string) (v : value) (body : record) : record :=
  match body with
  | [] => [(key, v)]
  | (k, w) :: rest =>
      if String.eqb k key then (k, v) :: rest
      else (k, w) :: set key v rest
  end.

(** [key in body], for own properties. *)
Definition has (key : string) (body : record) : bool :=
  existsb (fun kv => String.eqb (fst kv) key) body.

End Values.

(* ================================================================== *)
(** ** The validation library's chain, as the sources build it *)

(** Modelled from the spec: the chain type of the validation library
    [index.ts] imports, which is not part of the sources.  Following
    section 3 of the specification (FieldValidator), a chain is the
    field it checks and an ordered list of check and transform steps;
    each method called by [index.ts] adds one step at the end,
    [withMessage] gives its message to the check added last, and
    [optional] marks the chain as a whole. *)
Section ChainBuilder.

Context {RT : JsRuntime}.

(** The options object of [isFloat] and [isLength]: a missing key is
    [None]. *)
Record bounds : Type := { min : option num; max : option num }.

(** What a custom predicate does when called: return [true], return
    [false], or throw [new Error(message)]. *)
Inductive verdict : Type :=
| Accept
| Reject
| Raise (message : string).

(** [(value, { req }) => ...], reading [req.body]. *)
Definition predicate : Type := value -> record -> verdict.

(** The functions handed to [chain.custom(...)], one constructor per
    arrow function of [index.ts] (with the variables it captures) and
    one for the caller's own. *)
Inductive closure : Type :=
| InValues (values : list string)
| Same (field params : string)
| RequiredIf (field otherField rawValue : string)
| RequiredUnless (field otherField rawValue : string)
| ProhibitedIf (field otherField rawValue : string)
| UserRule (custom : predicate).

(** The checks a chain can hold. *)
Inductive validator : Type :=
| IsEmpty
| IsEmail
| IsInt
| IsFloat (options : bounds)
| IsBoolean
| IsURL
| IsJSON
| IsUUID
| IsAlpha
| IsAlphanumeric
| IsLength (options : bounds)
| Matches (pattern : string)
| IsString
| IsArray
| IsObject
| Custom (fn : closure).

(** The transforms a chain can hold: [trim()] and the function
    [index.ts] hands to [customSanitizer] (capturing [params]). *)
Inductive sanitizer : Type :=
| Trim
| DefaultTo (params : string).

Inductive item : Type :=
| Validate (v : validator) (negated : bool) (message : option string)
| Sanitize (s : sanitizer)
| Bail.

(** When a chain is skipped: never, on [undefined]
    ([optional()]), or on [undefined] and [null]
    ([optional({ nullable: true })]). *)
Inductive optionality : Type :=
| Mandatory
| SkipUndefined
| SkipNullish.

Record chain : Type := {
  path : string;
  stack : list item;
  skips : optionality
}.

(** [check(field)] *)
Definition check (field : string) : chain :=
  {| path := field; stack := []; skips := Mandatory |}.

Definition addItem (i : item) (c : chain) : chain :=
  {| path := path c; stack := stack c ++ [i]; skips := skips c |}.

Definition isValidate (i : item) : bool :=
  match i with Validate _ _ _ => true | _ => false end.

(** The message goes to the validator added last. *)
Fixpoint setMessage (m : string) (items : list item) : list item :=
  match items with
  | [] => []
  | i :: rest =>
      if existsb isValidate rest then i :: setMessage m rest
      else match i with
           | Validate v n _ => Validate v n (Some m) :: rest
           | _ => i :: rest
           end
  end.

Definition withMessage (m : string) (c : chain) : chain :=
  {| path := path c; stack := setMessage m (stack c); skips := skips c |}.

Definition bail : chain -> chain := addItem Bail.

Definition optional (c : chain) : chain :=
  {| path := path c; stack := stack c; skips := SkipUndefined |}.

(** [optional({ nullable: true })] *)
Definition optionalNullable (c : chain) : chain :=
  {| path := path c; stack := stack c; skips := SkipNullish |}.

Definition validation (v : validator) : chain -> chain :=
  addItem (Validate v false None).

(** [notEmpty()] is [not().isEmpty()]. *)
Definition notEmpty : chain -> chain :=
  addItem (Validate IsEmpty true None).

Definition isEmail := validation IsEmail.
Definition isString := validation IsString.
Definition isInt := validation IsInt.
Definition isFloat (o : bounds) := validation (IsFloat o).
Definition isBoolean := validation IsBoolean.
Definition isURL := validation IsURL.
Definition isArray := validation IsArray.
Definition isObject := validation IsObject.
Definition isJSON := validation IsJSON.
Definition isUUID := validation IsUUID.
Definition isAlpha := validation IsAlpha.
Definition isAlphanumeric := validation IsAlphanumeric.
Definition isLength (o : bounds) := validation (IsLength o).
Definition matches (pattern : string) := validation (Matches pattern).
Definition custom (fn : closure) := validation (Custom fn).
Definition trim : chain -> chain := addItem (Sanitize Trim).
Definition customSanitizer (s : sanitizer) : chain -> chain :=
  addItem (Sanitize s).

End ChainBuilder.

(* ================================================================== *)
(** ** index.ts: the rule compiler *)

Notation "c |> m" := (m c) (at level 45, left associativity, only parsing).

Section Index.

Context {RT : JsRuntime}.

(** [export type CustomRule = { custom: ... }] *)
Record CustomRule : Type := { rule_custom : predicate }.

(** [export type RuleItem = BasicRule | ParamRule | CustomRule]; any
    string is accepted where a rule string is expected. *)
Inductive RuleItem : Type :=
| RuleString (rule : string)
| RuleObject (rule : CustomRule).

(** One entry of a [RuleConfig]: a pipe-delimited string or an
    array. *)
Inductive RuleSpec : Type :=
| SpecString (rawRules : string)
| SpecArray (rawRules : list RuleItem).

(** [Record<string, ...>], in [for ... in] order. *)
Definition RuleConfig : Type := list (string * RuleSpec).

(** The local variable [chain] of [makeValidators] starts as a chain
    and is reassigned with whatever each call returns.  A call of a
    member [basicValidators] inherits from [Object.prototype] returns
    something else: *)
Inductive other : Type :=
| OString (s : string)
| OBoolean (b : bool)
| OUndefined
| OTable                (* the object [basicValidators] itself *)
| OWrapper (o : other). (* [Object(primitive)] *)

Inductive slot : Type :=
| AChain (c : chain)
| NotAChain (o : other).

(** [chain.m(...)...]: a [TypeError] unless [chain] is a chain. *)
Definition call (methods : chain -> chain) (chain : slot) : result slot :=
  match chain with
  | AChain c => Ok (AChain (methods c))
  | NotAChain _ => Throw TypeError
  end.

(** Own properties of the object literal [basicValidators]. *)
Definition basicValidators : list (string * (slot -> string -> result slot)) :=
  [ ("required", fun c f =>
       call (fun c => c |> notEmpty |> withMessage (f ++ " is required") |> bail) c);
    ("optional", fun c _ => call optional c);
    ("nullable", fun c _ => call optionalNullable c);
    ("email", fun c f =>
       call (fun c => c |> isEmail |> withMessage (f ++ " must be a valid email")) c);
    ("string", fun c f =>
       call (fun c => c |> isString |> withMessage (f ++ " must be a string")) c);
    ("integer", fun c f =>
       call (fun c => c |> isInt |> withMessage (f ++ " must be an integer")) c);
    ("numeric", fun c f =>
       call (fun c => c |> isFloat {| min := None; max := None |}
                       |> withMessage (f ++ " must be numeric")) c);
    ("boolean", fun c f =>
       call (fun c => c |> isBoolean |> withMessage (f ++ " must be true or false")) c);
    ("url", fun c f =>
       call (fun c => c |> isURL |> withMessage (f ++ " must be a valid URL")) c);
    ("array", fun c f =>
       call (fun c => c |> isArray |> withMessage (f ++ " must be an array")) c);
    ("object", fun c f =>
       call (fun c => c |> isObject |> withMessage (f ++ " must be an object")) c);
    ("json", fun c f =>
       call (fun c => c |> isJSON |> withMessage (f ++ " must be valid JSON")) c);
    ("uuid", fun c f =>
       call (fun c => c |> isUUID |> withMessage (f ++ " must be a valid UUID")) c);
    ("alpha", fun c f =>
       call (fun c => c |> isAlpha |> withMessage (f ++ " must contain only letters")) c);
    ("alphanumeric", fun c f =>
       call (fun c => c |> isAlphanumeric
                       |> withMessage (f ++ " must contain only letters & numbers")) c) ].

(** [basicValidators] is an object literal, so [basicValidators[rule]]
    also finds the members of [Object.prototype]. *)
Inductive inherited : Type :=
| P_constructor
| P_toString
| P_toLocaleString
| P_valueOf
| P_hasOwnProperty
| P_isPrototypeOf
| P_propertyIsEnumerable
| P_proto
| P_defineGetter
| P_defineSetter
| P_lookupGetter
| P_lookupSetter.

Definition Object_prototype : list (string * inherited) :=
  [ ("constructor", P_constructor);
    ("toString", P_toString);
    ("toLocaleString", P_toLocaleString);
    ("valueOf", P_valueOf);
    ("hasOwnProperty", P_hasOwnProperty);
    ("isPrototypeOf", P_isPrototypeOf);
    ("propertyIsEnumerable", P_propertyIsEnumerable);
    ("__proto__", P_proto);
    ("__defineGetter__", P_defineGetter);
    ("__defineSetter__", P_defineSetter);
    ("__lookupGetter__", P_lookupGetter);
    ("__lookupSetter__", P_lookupSetter) ].

Fixpoint assoc {A : Type} (key : string) (table : list (string * A))
  : option A :=
  match table with
  | [] => None
  | (k, a) :: rest => if String.eqb k key then Some a else assoc key rest
  end.

Inductive property : Type :=
| Own (fn : slot -> string -> result slot)
| Inherited (member : inherited)
| Absent.

(** [basicValidators[rule]] *)
Definition lookup (rule : string) : property :=
  match assoc rule basicValidators with
  | Some fn => Own fn
  | None =>
      match assoc rule Object_prototype with
      | Some member => Inherited member
      | None => Absent
      end
  end.

(** [Object(x)]: an object is returned as it is, anything else is
    wrapped. *)
Definition ObjectOf (x : slot) : slot :=
  match x with
  | AChain c => AChain c
  | NotAChain OTable => NotAChain OTable
  | NotAChain (OWrapper o) => NotAChain (OWrapper o)
  | NotAChain o => NotAChain (OWrapper o)
  end.

(** [basicValidators[rule](chain, field)] for an inherited member,
    called with [this = basicValidators].  [__proto__] is an object,
    not a function; [__defineGetter__] and [__defineSetter__] reject
    the string [field] as an accessor. *)
Definition callInherited (member : inherited) (chain : slot)
  : result slot :=
  match member with
  | P_constructor => Ok (ObjectOf chain)
  | P_toString | P_toLocaleString =>
      Ok (NotAChain (OString "[object Object]"))
  | P_valueOf => Ok (NotAChain OTable)
  | P_hasOwnProperty | P_isPrototypeOf | P_propertyIsEnumerable =>
      Ok (NotAChain (OBoolean false))
  | P_lookupGetter | P_lookupSetter => Ok (NotAChain OUndefined)
  | P_proto | P_defineGetter | P_defineSetter => Throw TypeError
  end.

(** [`${x}`] for a destructured array element that may be missing. *)
Definition show (x : option num) : string :=
  match x with
  | Some n => numToString n
  | None => "undefined"
  end.

(** [allRules.includes("integer") || allRules.includes("numeric")] *)
Definition numericTag (allRules : list string) : bool :=
  Js.includes "integer" allRules || Js.includes "numeric" allRules.

(** Logic for parameterized rules.  The arrow functions handed to
    [custom] and [customSanitizer] are the constructors of [closure] and
    [sanitizer], holding the variables they capture; their bodies are
    [runClosure] and [runSanitizer].  [new RegExp] is evaluated after
    the member [chain.matches] is read and before it is called. *)
Definition applyParamRule (chain : slot) (field ruleName params : string)
  (allRules : list string) : result slot :=
  if ruleName =? "min" then
    let min := parseInt10 params in
    if numericTag allRules then
      call (fun c => c |> isFloat {| min := Some min; max := None |}
                      |> withMessage (field ++ " must be at least " ++ numToString min))
           chain
    else
      call (fun c => c |> isLength {| min := Some min; max := None |}
                      |> withMessage (field ++ " must be at least " ++ numToString min
                                            ++ " characters"))
           chain
  else if ruleName =? "max" then
    let max := parseInt10 params in
    if numericTag allRules then
      call (fun c => c |> isFloat {| min := None; max := Some max |}
                      |> withMessage (field ++ " must be at most " ++ numToString max))
           chain
    else
      call (fun c => c |> isLength {| min := None; max := Some max |}
                      |> withMessage (field ++ " must be at most " ++ numToString max
                                            ++ " characters"))
           chain
  else if ruleName =? "length" then
    let parts := map Number (Js.split "," params) in
    let min := nth_error parts 0 in
    let max := nth_error parts 1 in
    call (fun c => c |> isLength {| min := min; max := max |}
                    |> withMessage (field ++ " must be between " ++ show min ++ " and "
                                          ++ show max ++ " characters"))
         chain
  else if ruleName =? "between" then
    let parts := map Number (Js.split "," params) in
    let min := nth_error parts 0 in
    let max := nth_error parts 1 in
    if numericTag allRules then
      call (fun c => c |> isFloat {| min := min; max := max |}
                      |> withMessage (field ++ " must be between " ++ show min ++ " and "
                                            ++ show max))
           chain
    else
      call (fun c => c |> isLength {| min := min; max := max |}
                      |> withMessage (field ++ " must be between " ++ show min ++ " and "
                                            ++ show max ++ " characters"))
           chain
  else if ruleName =? "in" then
    let values := map Js.trim (Js.split "," params) in
    call (fun c => c |> trim |> custom (InValues values)
                    |> withMessage (field ++ " must be one of: " ++ Js.join ", " values))
         chain
  else if ruleName =? "regex" then
    let pattern :=
      if Js.startsWith "/" params && Js.endsWith "/" params
      then Js.slice_1_m1 params else params in
    match chain with
    | NotAChain OUndefined => Throw TypeError
    | _ =>
        if RegExp_ok pattern then
          call (fun c => c |> matches pattern
                          |> withMessage (field ++ " format is invalid"))
               chain
        else Throw SyntaxError
    end
  else if ruleName =? "same" then
    call (custom (Same field params)) chain
  else if ruleName =? "default" then
    call (customSanitizer (DefaultTo params)) chain
  else if ruleName =? "required_if" then
    match Js.indexOf "," params with
    | None => Ok chain
    | Some firstCommaIndex =>
        let otherField := Js.take firstCommaIndex params in
        let rawValue := Js.drop (firstCommaIndex + 1) params in
        call (custom (RequiredIf field otherField rawValue)) chain
    end
  else if ruleName =? "required_unless" then
    match Js.indexOf "," params with
    | None => Ok chain
    | Some firstCommaIndex =>
        let otherField := Js.take firstCommaIndex params in
        let rawValue := Js.drop (firstCommaIndex + 1) params in
        call (custom (RequiredUnless field otherField rawValue)) chain
    end
  else if ruleName =? "prohibited_if" then
    match Js.indexOf "," params with
    | None => Ok chain
    | Some firstCommaIndex =>
        let otherField := Js.take firstCommaIndex params in
        let rawValue := Js.drop (firstCommaIndex + 1) params in
        call (custom (ProhibitedIf field otherField rawValue)) chain
    end
  else Ok chain.

(** The normalisation at the head of the loop body: [fieldRules] and
    [customRules], each filled by [push]. *)
Definition normalize (rawRules : RuleSpec)
  : list string * list CustomRule :=
  match rawRules with
  | SpecString s => (Js.split "|" s, [])
  | SpecArray items =>
      fold_left
        (fun (acc : list string * list CustomRule) r =>
           match r with
           | RuleString s => ((fst acc ++ [s])%list, snd acc)
           | RuleObject c => (fst acc, (snd acc ++ [c])%list)
           end)
        items ([], [])
  end.

(** The body of [fieldRules.forEach((rule) => ...)]. *)
Definition applyRule (field : string) (fieldRules : list string)
  (chain : slot) (rule : string) : result slot :=
  if Js.contains ":" rule then
    match Js.indexOf ":" rule with
    | Some splitIndex =>
        let ruleName := Js.take splitIndex rule in
        let params := Js.drop (splitIndex + 1) rule in
        applyParamRule chain field ruleName params fieldRules
    | None => Ok chain
    end
  else
    match lookup rule with
    | Own fn => fn chain field
    | Inherited member => callInherited member chain
    | Absent => Ok chain
    end.

(** The body of [customRules.forEach(rule => ...)]. *)
Definition applyCustom (chain : slot) (rule : CustomRule) : result slot :=
  call (custom (UserRule (rule_custom rule))) chain.

(** One iteration of [for (const field in rules)], after the
    normalisation: both [forEach] loops, starting from
    [check(field)]. *)
Definition build (field : string) (fieldRules : list string)
  (customRules : list CustomRule) : result slot :=
  chain <- forEach (applyRule field fieldRules) fieldRules
             (AChain (check field)) ;;
  forEach applyCustom customRules chain.

(** One iteration of [for (const field in rules)]: the value pushed
    onto [validators]. *)
Definition compileField (field : string) (rawRules : RuleSpec)
  : result slot :=
  build field (fst (normalize rawRules)) (snd (normalize rawRules)).

Definition makeValidators (rules : RuleConfig) : result (list slot) :=
  forEach
    (fun validators entry =>
       chain <- compileField (fst entry) (snd entry) ;;
       Ok (validators ++ [chain])%list)
    rules [].

(** One entry of [validationResult(req).array()]. *)
Record error : Type := { err_path : string; msg : string }.

(** What [validate] does with the response. *)
Inductive response : Type :=
| Status422 (errors : list string)
| Next.

(** [validate], given the errors [validationResult(req)] holds. *)
Definition validate (errors : list error) : response :=
  match errors with
  | [] => Next
  | _ => Status422 (map msg errors)
  end.

End Index.

(* ================================================================== *)
(** ** Running a compiled chain against a record *)

(** Modelled from the spec: the runner of the validation library, which
    [index.ts] imports and which is not part of the sources.  Following
    sections 4.1 and 4.2 of the specification, a chain runs its items in
    the order they were added, against the current value of its field in
    the record; a failing check appends its message and the run goes on;
    [bail] stops the chain once it holds an error; an optional chain is
    skipped while the value is absent; a transform writes the new value
    back into the record.

    As in section 1 of the specification, a request is one flat record
    (the body) and a field name is a property name of it; a custom
    predicate is a function that returns or throws at once.

    What the library delegates further is an interface: the predicates
    of the string-validation package behind each check, the two
    equalities of the language on arbitrary values, and the text the
    host gives for a built-in function. *)
Class Library {RT : JsRuntime} := {
  (** the predicate behind a check, on the stringified value *)
  holds : validator -> string -> bool;
  (** [a === b] *)
  strictEq : value -> value -> bool;
  (** [a == b] *)
  looseEq : value -> value -> bool;
  (** [String(f)] for a function [f] of [Object.prototype] *)
  functionText : inherited -> string
}.

Section Runner.

Context {RT : JsRuntime} {LIB : Library}.

(** [String(v)], for plain data. *)
Fixpoint StringOf (v : value) : string :=
  match v with
  | VUndefined => "undefined"
  | VNull => "null"
  | VBool true => "true"
  | VBool false => "false"
  | VNum n => numToString n
  | VStr s => s
  | VArr items =>
      Js.join ","
        (map (fun x => match x with
                       | VUndefined | VNull => ""
                       | _ => StringOf x
                       end) items)
  | VObj _ => "[object Object]"
  end.

(** The string a check or a standard transform sees: nothing for
    [undefined], [null] and [NaN]; the first element of an array. *)
Definition stringifyShallow (v : value) : string :=
  match v with
  | VUndefined | VNull => ""
  | VNum n => if numIsNaN n then "" else numToString n
  | _ => StringOf v
  end.

Definition stringify (v : value) : string :=
  match v with
  | VArr (x :: _) => stringifyShallow x
  | _ => stringifyShallow v
  end.

(** [rawValue === "true" ? true : rawValue === "false" ? false :
    rawValue] *)
Definition expected (rawValue : string) : value :=
  if rawValue =? "true" then VBool true
  else if rawValue =? "false" then VBool false
  else VStr rawValue.

(** [value === undefined || value === "" || value === null] *)
Definition blank (v : value) : bool :=
  match v with
  | VUndefined | VNull | VStr EmptyString => true
  | _ => false
  end.

(** What [req.body[key]] evaluates to in an arrow function of
    [index.ts]: a value of the request, or a member of
    [Object.prototype]. *)
Inductive member : Type :=
| Data (v : value)
| Proto (m : inherited).

(** [req.body[key]]: the body is an ordinary object, so a key it does
    not own is looked up in [Object.prototype]. *)
Definition bodyAt (key : string) (body : record) : member :=
  if has key body then Data (get key body)
  else
    match assoc key Object_prototype with
    | Some m => Proto m
    | None => Data VUndefined
    end.

(** [String(x)] for a member of [Object.prototype]: [__proto__] is the
    prototype itself, the others are built-in functions. *)
Definition memberText (m : inherited) : string :=
  match m with
  | P_proto => "[object Object]"
  | _ => functionText m
  end.

(** [value === other], for a value of the request on the left: no
    member of [Object.prototype] is one. *)
Definition identical (v : value) (other : member) : bool :=
  match other with
  | Data w => strictEq v w
  | Proto _ => false
  end.

(** [otherVal == expected], for a string or a boolean on the right: an
    object is compared through its string. *)
Definition equals (otherVal : member) (e : value) : bool :=
  match otherVal with
  | Data w => looseEq w e
  | Proto m => looseEq (VStr (memberText m)) e
  end.

(** The bodies of the arrow functions of [index.ts] handed to
    [custom]. *)
Definition runClosure (fn : closure) (v : value) (body : record)
  : verdict :=
  match fn with
  | InValues values =>
      if Js.includes (Js.trim (StringOf v)) values then Accept else Reject
  | Same field params =>
      if negb (identical v (bodyAt params body))
      then Raise (field ++ " must match " ++ params)
      else Accept
  | RequiredIf field otherField rawValue =>
      let otherVal := bodyAt otherField body in
      if equals otherVal (expected rawValue) && blank v
      then Raise (field ++ " is required when " ++ otherField ++ " is "
                        ++ StringOf (expected rawValue))
      else Accept
  | RequiredUnless field otherField rawValue =>
      let otherVal := bodyAt otherField body in
      if negb (equals otherVal (expected rawValue)) && blank v
      then Raise (field ++ " is required unless " ++ otherField ++ " is "
                        ++ StringOf (expected rawValue))
      else Accept
  | ProhibitedIf field otherField rawValue =>
      let otherVal := bodyAt otherField body in
      if equals otherVal (expected rawValue) && negb (blank v)
      then Raise (field ++ " is not allowed when " ++ otherField ++ " is "
                        ++ StringOf (expected rawValue))
      else Accept
  | UserRule p => p v body
  end.

(** The body of the arrow function handed to [customSanitizer], and
    [trim()]. *)
Definition runSanitizer (s : sanitizer) (v : value) : value :=
  match s with
  | DefaultTo params => if blank v then VStr params else v
  | Trim =>
      match v with
      | VArr items => VArr (map (fun x => VStr (Js.trim (stringify x))) items)
      | _ => VStr (Js.trim (stringify v))
      end
  end.

(** Checks that look at the value itself. *)
Definition onValue (v : validator) : option (value -> record -> verdict) :=
  match v with
  | IsString =>
      Some (fun x _ => match x with VStr _ => Accept | _ => Reject end)
  | IsArray =>
      Some (fun x _ => match x with VArr _ => Accept | _ => Reject end)
  | IsObject =>
      Some (fun x _ => match x with VObj _ => Accept | _ => Reject end)
  | Custom fn => Some (runClosure fn)
  | _ => None
  end.

(** Checks that look at the stringified value. *)
Definition onString (v : validator) (s : string) : bool :=
  match v with
  | IsEmpty => s =? ""
  | _ => holds v s
  end.

Definition elements (v : value) : list value :=
  match v with
  | VArr items => items
  | _ => [v]
  end.

(** The messages one check adds. *)
Definition failures (v : validator) (negated : bool)
  (message : option string) (cur : value) (body : record)
  : list string :=
  let m := match message with Some m => m | None => "Invalid value" end in
  match onValue v with
  | Some p =>
      match p cur body with
      | Accept => if negated then [m] else []
      | Reject => if negated then [] else [m]
      | Raise thrown =>
          if negated then []
          else [match message with Some m => m | None => thrown end]
      end
  | None =>
      map (fun _ => m)
        (filter (fun x => Bool.eqb (onString v (stringify x)) negated)
           (elements cur))
  end.

(** A new value is written back unless nothing changed; an absent
    property that is still [undefined] is not created. *)
Definition store (field : string) (v : value) (body : record) : record :=
  match v with
  | VUndefined => if has field body then set field v body else body
  | _ => set field v body
  end.

Record state : Type := {
  body : record;
  errors : list error;
  halted : bool
}.

Definition skipped (o : optionality) (v : value) : bool :=
  match o, v with
  | SkipUndefined, VUndefined => true
  | SkipNullish, VUndefined => true
  | SkipNullish, VNull => true
  | _, _ => false
  end.

Definition runItem (field : string) (o : optionality) (st : state)
  (i : item) : state :=
  let cur := get field (body st) in
  if halted st || skipped o cur then st
  else
    match i with
    | Validate v negated message =>
        {| body := body st;
           errors := (errors st ++
                      map (fun m => {| err_path := field; msg := m |})
                          (failures v negated message cur (body st)))%list;
           halted := false |}
    | Sanitize s =>
        {| body := store field (runSanitizer s cur) (body st);
           errors := errors st;
           halted := false |}
    | Bail =>
        {| body := body st;
           errors := errors st;
           halted := match errors st with [] => false | _ => true end |}
    end.

Definition runItems (field : string) (o : optionality)
  (items : list item) (st : state) : state :=
  fold_left (runItem field o) items st.

(** One chain, as a middleware: the record afterwards and the errors
    of this chain. *)
Definition run (c : chain) (b : record) : record * list error :=
  let st := runItems (path c) (skips c) (stack c)
              {| body := b; errors := []; halted := false |} in
  (body st, errors st).

(** The chains of a route in order, each on the record the previous
    one left; [validationResult] then holds all their errors. *)
Fixpoint runAll (validators : list chain) (b : record)
  : record * list error :=
  match validators with
  | [] => (b, [])
  | c :: rest =>
      let r := run c b in
      let r' := runAll rest (fst r) in
      (fst r', (snd r ++ snd r')%list)
  end.

(** A route can only be built from chains. *)
Fixpoint chains (validators : list slot) : option (list chain) :=
  match validators with
  | [] => Some []
  | AChain c :: rest => option_map (cons c) (chains rest)
  | NotAChain _ :: _ => None
  end.

(** [app.post(path, ...validators, validate, handler)]: what the
    request ends with, and the record the handler would see. *)
Definition handle (validators : list chain) (b : record)
  : record * response :=
  let r := runAll validators b in
  (fst r, validate (snd r)).

End Runner.

(* ================================================================== *)
(** ** The patterns of sanitize.ts *)

Module Regex.

(** The pattern syntax [clean] uses. *)
Inductive re : Type :=
| Eps
| Class (p : ascii -> bool)
| Seq (r1 r2 : re)
| Alt (r1 r2 : re)
| Star (r : re)
| Start.

(** [r+] and [r?], both greedy. *)
Definition Plus (r : re) : re := Seq r (Star r).
Definition Opt (r : re) : re := Alt r Eps.

Definition Chr (c : ascii) : re := Class (Ascii.eqb c).
Definition Not (c : ascii) : re := Class (fun a => negb (Ascii.eqb c a)).

(** A letter under the [i] flag. *)
Definition lower (a : ascii) : ascii :=
  let n := nat_of_ascii a in
  if ((65 <=? n) && (n <=? 90))%nat then ascii_of_nat (n + 32) else a.

Definition ChrI (c : ascii) : re :=
  Class (fun a => Ascii.eqb (lower a) (lower c)).

Fixpoint LitI (s : string) : re :=
  match s with
  | EmptyString => Eps
  | String c s' => Seq (ChrI c) (LitI s')
  end.

(** [\w] *)
Definition isWord (a : ascii) : bool :=
  let n := nat_of_ascii a in
  (((48 <=? n) && (n <=? 57)) || ((65 <=? n) && (n <=? 90))
   || ((97 <=? n) && (n <=? 122)) || (n =? 95))%nat.

(** A matcher takes the offset, what is left of the input, and what
    must match afterwards; it returns what is left after the whole
    match. *)
Definition cont : Type := nat -> string -> option string.
Definition matcher : Type := nat -> string -> cont -> option string.

(** Greedy iteration of [m], at most [fuel] times; an iteration that
    consumes nothing is not taken. *)
Fixpoint starLoop (m : matcher) (k : cont) (fuel pos : nat) (s : string)
  : option string :=
  match fuel with
  | 0 => k pos s
  | S fuel' =>
      match
        m pos s
          (fun pos' s' =>
             if (String.length s' <? String.length s)%nat
             then starLoop m k fuel' pos' s' else None)
      with
      | Some rest => Some rest
      | None => k pos s
      end
  end.

(** Backtracking match of [r] at offset [pos]. *)
Fixpoint exec (r : re) (pos : nat) (s : string) (k : cont) {struct r}
  : option string :=
  match r with
  | Eps => k pos s
  | Class p =>
      match s with
      | String a s' => if p a then k (S pos) s' else None
      | EmptyString => None
      end
  | Seq r1 r2 => exec r1 pos s (fun pos' s' => exec r2 pos' s' k)
  | Alt r1 r2 =>
      match exec r1 pos s k with
      | Some rest => Some rest
      | None => exec r2 pos s k
      end
  | Star r1 => starLoop (exec r1) k (String.length s) pos s
  | Start => if (pos =? 0)%nat then k pos s else None
  end.

(** The match starting at offset [pos], if any: what follows it. *)
Definition matchAt (r : re) (pos : nat) (s : string) : option string :=
  exec r pos s (fun _ rest => Some rest).

(** [s.replace(/r/g, "")], scanning from offset [pos]: each match is
    dropped and the scan resumes after it (one character further
    after an empty match). *)
Fixpoint scan (r : re) (fuel pos : nat) (s : string) : string :=
  match fuel with
  | 0 => s
  | S fuel' =>
      let keep :=
        match s with
        | String a s' => String a (scan r fuel' (S pos) s')
        | EmptyString => EmptyString
        end in
      match matchAt r pos s with
      | Some rest =>
          if (String.length rest <? String.length s)%nat
          then scan r fuel'
                 (pos + (String.length s - String.length rest)) rest
          else keep
      | None => keep
      end
  end.

Definition remove (r : re) (s : string) : string :=
  scan r (S (String.length s)) 0 s.

End Regex.

(* ================================================================== *)
(** ** sanitize.ts *)

Section Sanitize.

Import Regex.

Context {RT : JsRuntime}.

(** The double quote and the single quote. *)
Definition dquote : ascii := ascii_of_nat 34.
Definition squote : ascii := ascii_of_nat 39.

(** [/javascript\s*:[^;\s]+;?/gi] *)
Definition javascriptLink : re :=
  Seq (LitI "javascript")
    (Seq (Star (Class Js.isSpace))
       (Seq (Chr ":")
          (Seq (Plus (Class (fun a => negb (Ascii.eqb a ";" || Js.isSpace a))))
             (Opt (Chr ";"))))).

(** [/(^|\s)on\w+=q[^q]*q/gi] for a quote character [q]. *)
Definition eventHandler (q : ascii) : re :=
  Seq (Alt Start (Class Js.isSpace))
    (Seq (LitI "on")
       (Seq (Plus (Class isWord))
          (Seq (Chr "=")
             (Seq (Chr q) (Seq (Star (Not q)) (Chr q)))))).

(** [/<[^>]*>?/gm] *)
Definition htmlTag : re :=
  Seq (Chr "<") (Seq (Star (Not ">")) (Opt (Chr ">"))).

(** Clean a single string. *)
Definition clean (value : string) : string :=
  let sanitized := Js.trim value in
  let sanitized := remove javascriptLink sanitized in
  let sanitized := remove (eventHandler dquote) sanitized in
  let sanitized := remove (eventHandler squote) sanitized in
  let sanitized := remove htmlTag sanitized in
  sanitized.

(** [cleanedObj[key] = v] on an object created by [{}]: the key
    [__proto__] reaches the prototype setter and creates no
    property. *)
Definition assign (key : string) (v : value) (cleanedObj : record)
  : record :=
  if key =? "__proto__" then cleanedObj else set key v cleanedObj.

(** Recursive sanitizer for nested objects and arrays. *)
Fixpoint deepClean (obj : value) : value :=
  match obj with
  | VArr items => VArr (map deepClean items)
  | VObj props =>
      VObj (fold_left
              (fun cleanedObj entry =>
                 assign (fst entry) (deepClean (snd entry)) cleanedObj)
              props [])
  | VStr s => VStr (clean s)
  | _ => obj
  end.

End Sanitize.

(* ================================================================== *)
(** ** sanitize.ts: the middleware *)

(** Whether a number is [0] or [-0]: with [numIsNaN], what makes a
    number falsy. *)
Class JsZero {RT : JsRuntime} := {
  numIsZero : num -> bool
}.

Section Middleware.

Context {RT : JsRuntime} {ZT : JsZero}.

(** [if (v)] *)
Definition truthy (v : value) : bool :=
  match v with
  | VUndefined | VNull => false
  | VBool b => b
  | VNum n => negb (numIsZero n || numIsNaN n)
  | VStr s => negb (s =? "")
  | VArr _ | VObj _ => true
  end.

(** The parts of a request the middleware touches: the value of
    [req.body], and the objects [req.query] and [req.params] evaluate
    to, which the middleware changes in place.  The framework types the
    two as objects; a part that is not there is [undefined] ([None]). *)
Record Request : Type := {
  req_body : value;
  req_query : option record;
  req_params : option record
}.

(** [Object.assign(target, source)] for two objects: each property of
    [source] is set on [target], in order. *)
Definition ObjectAssign (target source : record) : record :=
  fold_left (fun t entry => assign (fst entry) (snd entry) t) source target.

(** [Object.assign(obj, deepClean(obj))] *)
Definition assignCleaned (obj : record) : record :=
  match deepClean (VObj obj) with
  | VObj cleaned => ObjectAssign obj cleaned
  | _ => obj
  end.

(** Express middleware: the request handed to [next()]. *)
Definition sanitizeMiddleware (req : Request) : Request :=
  {| req_body :=
       if truthy (req_body req) then deepClean (req_body req)
       else req_body req;
     req_query := option_map assignCleaned (req_query req);
     req_params := option_map assignCleaned (req_params req) |}.

End Middleware.

(* ================================================================== *)
(** ** A host to evaluate examples on *)

(** A host whose numbers are the integers and [NaN] ([None]), for
    examples written with integer literals.  [parseInt] reads an
    optional sign and the longest run of digits after leading white
    space; [Number] reads white space around an optional sign and
    digits, and the empty string as zero; any other text reads as
    [NaN].  Every pattern compiles, every check of the string-validation
    package passes, and the equalities compare primitives. *)
Module IntegerHost.

Definition isDigit (a : ascii) : bool :=
  let n := nat_of_ascii a in ((48 <=? n) && (n <=? 57))%nat.

(** The digits at the head of [s], accumulated onto [acc]. *)
Fixpoint digits (acc : option Z) (s : string) : option Z * string :=
  match s with
  | String a s' =>
      if isDigit a then
        let d := Z.of_nat (nat_of_ascii a - 48) in
        digits (Some (match acc with
                      | Some n => 10 * n + d
                      | None => d
                      end)%Z) s'
      else (acc, s)
  | EmptyString => (acc, s)
  end.

Definition signed (s : string) : option Z * string :=
  match s with
  | String "-" s' =>
      let r := digits None s' in (option_map Z.opp (fst r), snd r)
  | String "+" s' => digits None s'
  | _ => digits None s
  end.

Definition parseInt (s : string) : option Z :=
  fst (signed (Js.trimStart s)).

Definition toNumber (s : string) : option Z :=
  match Js.trim s with
  | EmptyString => Some 0%Z
  | t => match signed t with
         | (n, EmptyString) => n
         | _ => None
         end
  end.

Fixpoint natDigits (fuel n : nat) (acc : string) : string :=
  match fuel with
  | 0 => acc
  | S fuel' =>
      let acc' := String (ascii_of_nat (48 + n mod 10)) acc in
      if (n <? 10)%nat then acc' else natDigits fuel' (n / 10) acc'
  end.

Definition showZ (z : Z) : string :=
  let n := Z.abs_nat z in
  let d := natDigits (S n) n "" in
  if (z <? 0)%Z then String "-" d else d.

Definition toString (n : option Z) : string :=
  match n with
  | Some z => showZ z
  | None => "NaN"
  end.

#[export] Instance host : JsRuntime := {|
  num := option Z;
  parseInt10 := parseInt;
  Number := toNumber;
  numToString := toString;
  numIsNaN := fun n => match n with None => true | Some _ => false end;
  RegExp_ok := fun _ => true
|}.

(** Equality of primitives. *)
Definition sameValue (a b : value) : bool :=
  match a, b with
  | VUndefined, VUndefined => true
  | VNull, VNull => true
  | VBool x, VBool y => Bool.eqb x y
  | VNum (Some x), VNum (Some y) => Z.eqb x y
  | VStr x, VStr y => String.eqb x y
  | _, _ => false
  end.

(** The text of a built-in function, as Node prints it. *)
Definition nativeText (m : inherited) : string :=
  let name :=
    match m with
    | P_constructor => "Object"
    | P_toString => "toString"
    | P_toLocaleString => "toLocaleString"
    | P_valueOf => "valueOf"
    | P_hasOwnProperty => "hasOwnProperty"
    | P_isPrototypeOf => "isPrototypeOf"
    | P_propertyIsEnumerable => "propertyIsEnumerable"
    | P_proto => "__proto__"
    | P_defineGetter => "__defineGetter__"
    | P_defineSetter => "__defineSetter__"
    | P_lookupGetter => "__lookupGetter__"
    | P_lookupSetter => "__lookupSetter__"
    end in
  "function " ++ name ++ "() { [native code] }".

#[export] Instance library : Library := {|
  holds := fun _ _ => true;
  strictEq := sameValue;
  looseEq := fun a b =>
    match a, b with
    | VUndefined, VNull | VNull, VUndefined => true
    | _, _ => sameValue a b
    end;
  functionText := nativeText
|}.

End IntegerHost.

(* ================================================================== *)
(** ** Vocabulary of the properties *)

Section Vocabulary.

Context {RT : JsRuntime}.

(** The case labels of the [switch] in [applyParamRule]. *)
Definition parameterizedRules : list string :=
  [ "min"; "max"; "length"; "between"; "in"; "regex"; "same"; "default";
    "required_if"; "required_unless"; "prohibited_if" ].

(** The string tokens and the custom-predicate descriptors of an array,
    each in their original relative order. *)
Definition stringTokens (items : list RuleItem)
  : list string :=
  flat_map (fun r => match r with
                     | RuleString s => [s]
                     | RuleObject _ => []
                     end) items.

Definition customPredicates (items : list RuleItem)
  : list CustomRule :=
  flat_map (fun r => match r with
                     | RuleString _ => []
                     | RuleObject c => [c]
                     end) items.

(** The compiler ignores the token [rule] of [field]: the loop body
    returns the chain as it is, whatever the chain and the sibling
    tokens, and the field compiles to what it compiles to without the
    token, in an array and in a pipe-delimited string. *)
Definition ignoredToken (field rule : string) : Prop :=
  (forall allRules chain, applyRule field allRules chain rule = Ok chain)
  /\ (forall pre post customRules,
         build field (pre ++ rule :: post) customRules
         = build field (pre ++ post) customRules)
  /\ (forall before after,
         compileField field (SpecArray (before ++ RuleString rule :: after))
         = compileField field (SpecArray (before ++ after)))
  /\ (forall rawRules rawRules' pre post,
         Js.split "|" rawRules = (pre ++ rule :: post)%list ->
         Js.split "|" rawRules' = (pre ++ post)%list ->
         compileField field (SpecString rawRules)
         = compileField field (SpecString rawRules')).

(** The item a caller's predicate becomes. *)
Definition customItem (rule : CustomRule) : item :=
  Validate (Custom (UserRule (rule_custom rule))) false None.

(** The items of a string token: what the loop body adds for it to the
    bare chain [check(field)], the field's tokens being [allRules]. *)
Definition tokenItems (field : string) (allRules : list string)
  (rule : string) : list item :=
  match applyRule field allRules (AChain (check field)) rule with
  | Ok (AChain c) => stack c
  | _ => []
  end.

(** [c'] is [c] with more items at the end. *)
Definition extends (c c' : chain) : Prop :=
  path c' = path c /\ exists more, stack c' = (stack c ++ more)%list.

(** Methods that only add items, and those that also leave the
    optional flag alone. *)
Definition widens (f : chain -> chain) : Prop :=
  forall c, extends c (f c).

Definition grows (f : chain -> chain) : Prop :=
  forall c, extends c (f c) /\ skips (f c) = skips c.

(** The errors of one field among those of a request. *)
Definition errorsOf (field : string) (errs : list error) : list error :=
  filter (fun e => String.eqb (err_path e) field) errs.

(** [cs] are the chains the entries of [rules] compile to, in order. *)
Definition compiled (rules : RuleConfig) (cs : list chain) : Prop :=
  Forall2
    (fun entry c => compileField (fst entry) (snd entry) = Ok (AChain c))
    rules cs.

(** The field is the empty string, or it is missing from the record and
    the chain is not optional. *)
Definition unfilled (field : string) (rest : list string)
  (b : record) : Prop :=
  get field b = VStr ""
  \/ (get field b = VUndefined
      /\ ~ In "optional" rest /\ ~ In "nullable" rest).

(** Plain data: no object, at any depth, repeats a key or has the key
    [__proto__]. *)
Fixpoint plain (v : value) : Prop :=
  match v with
  | VArr items =>
      (fix all (l : list value) : Prop :=
         match l with
         | [] => True
         | x :: l' => plain x /\ all l'
         end) items
  | VObj props =>
      NoDup (map fst props) /\ ~ In "__proto__" (map fst props)
      /\ (fix all (l : record) : Prop :=
            match l with
            | [] => True
            | entry :: l' => plain (snd entry) /\ all l'
            end) props
  | _ => True
  end.

(** The shape of a value: its containers and keys, every string leaf
    blanked. *)
Fixpoint shape (v : value) : value :=
  match v with
  | VArr items => VArr (map shape items)
  | VObj props => VObj (map (fun entry => (fst entry, shape (snd entry))) props)
  | VStr _ => VStr ""
  | _ => v
  end.

End Vocabulary.

(** What follows the star in [htmlTag]: the optional [>], then the
    end of the match. *)
Definition closing : Regex.cont :=
  fun pos s => Regex.exec (Regex.Opt (Regex.Chr ">")) pos s (fun _ rest => Some rest).

(** A matcher that treats equal continuations alike and only succeeds
    through its continuation. *)
Definition sound (m : Regex.matcher) : Prop :=
  (forall pos s k1 k2,
      (forall p t, k1 p t = k2 p t) -> m pos s k1 = m pos s k2)
  /\ (forall pos s, m pos s (fun _ _ => None) = None).

(** ** Vocabulary of the further properties *)

Section MoreVocabulary.

Context {RT : JsRuntime}.

(** [t] is [s] with characters left out. *)
Inductive subsequence : string -> string -> Prop :=
| sub_empty : forall s, subsequence EmptyString s
| sub_keep : forall a t s, subsequence t s ->
                           subsequence (String a t) (String a s)
| sub_drop : forall a t s, subsequence t s -> subsequence t (String a s).

(** [t] is what is left of [s] after some prefix. *)
Definition suffix (t s : string) : Prop := exists pre, s = pre ++ t.

(** A matcher succeeds only through its continuation, called on what
    is left of the input. *)
Definition reaches (m : Regex.matcher) : Prop :=
  forall pos s k rest,
    m pos s k = Some rest ->
    exists p t, suffix t s /\ k p t = Some rest.

(** Every match of [r] has the character [c] in it. *)
Definition needs (c : ascii) (r : Regex.re) : Prop :=
  forall pos s k rest,
    Regex.exec r pos s k = Some rest -> Js.contains c s = true.

(** A text without the character that opens a tag. *)
Definition tagless (s : string) : Prop := Js.contains "<" s = false.

(** [deepClean] applied to each property of an object, in place. *)
Definition cleanedEntries (obj : record) : record :=
  map (fun entry => (fst entry, deepClean (snd entry))) obj.

(** The string leaves of a value. *)
Fixpoint strings (v : value) : list string :=
  match v with
  | VStr s => [s]
  | VArr items => flat_map strings items
  | VObj props => flat_map (fun entry => strings (snd entry)) props
  | _ => []
  end.

(** The property names of a value, at any depth. *)
Fixpoint names (v : value) : list string :=
  match v with
  | VArr items => flat_map names items
  | VObj props => flat_map (fun entry => fst entry :: names (snd entry)) props
  | _ => []
  end.

(** The pattern [new RegExp] receives for a [regex:] parameter. *)
Definition patternOf (params : string) : string :=
  if Js.startsWith "/" params && Js.endsWith "/" params
  then Js.slice_1_m1 params else params.

(** [m] starts with [field]. *)
Definition labelled (field m : string) : Prop := exists rest, m = field ++ rest.

(** An item whose failures are reported under the name of [field]: a
    check with a message that starts with it, or one of the cross-field
    checks of [index.ts], which throw such a message themselves. *)
Definition wellItem (field : string) (i : item) : Prop :=
  match i with
  | Validate v negated message =>
      match message with
      | Some m => labelled field m
      | None =>
          match v, negated with
          | Custom (Same f _), false => f = field
          | Custom (RequiredIf f _ _), false => f = field
          | Custom (RequiredUnless f _ _), false => f = field
          | Custom (ProhibitedIf f _ _), false => f = field
          | _, _ => False
          end
      end
  | Sanitize _ => True
  | Bail => True
  end.

(** The members of [Object.prototype] whose call does not return its
    argument. *)
Definition harmful (rule : string) : Prop :=
  exists member,
    assoc rule Object_prototype = Some member /\ member <> P_constructor.

End MoreVocabulary.

(** Zero among the numbers of [IntegerHost]. *)
Module IntegerZero.

Definition isZero (n : option Z) : bool :=
  match n with Some 0%Z => true | _ => false end.

#[export] Instance zero : @JsZero IntegerHost.host :=
  @Build_JsZero IntegerHost.host isZero.

End IntegerZero.

(** ** Rules and chains to evaluate on *)

Section TestData.

Import IntegerHost.

(** The rules of [test/validation.test.ts] that matter below. *)
Definition testRules : RuleConfig :=
  [ ("name", SpecString "required|string");
    ("email", SpecString "required|email");
    ("age", SpecString "integer|min:18");
    ("role", SpecString "optional|in:admin,user");
    ("nickname", SpecString "default:Guest") ].

Definition testValidators : list slot :=
  Eval vm_compute in
    match makeValidators testRules with Ok vs => vs | Throw _ => [] end.

Definition testChains : list chain :=
  Eval vm_compute in
    match chains testValidators with Some cs => cs | None => [] end.

End TestData.

(* ================================================================== *)
(** * Properties *)

(** ** Strings *)

Section StringFacts.

Lemma indexOf_contains (c : ascii) (s : string) :
  Js.indexOf c s = None <-> Js.contains c s = false.
Proof.
  unfold Js.contains. destruct (Js.indexOf c s); split; congruence.
Qed.

Lemma trimStart_fixed (s : string) :
  Js.trimStart (Js.trimStart s) = Js.trimStart s.
Proof.
  induction s as [|a s IH]; simpl; [reflexivity|].
  destruct (Js.isSpace a) eqn:E; [exact IH|].
  simpl. rewrite E. reflexivity.
Qed.

(** Trimming what is already trimmed changes nothing... *)
Lemma trimEnd_fixed (s : string) :
  Js.trimEnd (Js.trimEnd s) = Js.trimEnd s.
Proof.
  induction s as [|a s IH]; simpl; [reflexivity|].
  destruct (Js.trimEnd s) as [|b r] eqn:E.
  - destruct (Js.isSpace a) eqn:Ea; simpl; [reflexivity|].
    rewrite Ea. reflexivity.
  - change (Js.trimEnd (String a (String b r))) with
      (match Js.trimEnd (String b r) with
       | EmptyString => if Js.isSpace a then EmptyString
                        else String a EmptyString
       | r' => String a r'
       end).
    rewrite IH. reflexivity.
Qed.

(** ...and [trimEnd] keeps a first character that is not white space. *)
Lemma trimEnd_head (a : ascii) (s : string) :
  Js.isSpace a = false ->
  exists r, Js.trimEnd (String a s) = String a r.
Proof.
  intros Ea. simpl. destruct (Js.trimEnd s).
  - rewrite Ea. eauto.
  - eauto.
Qed.

Lemma trimStart_head (s : string) :
  Js.trimStart s = EmptyString \/
  exists a r, Js.trimStart s = String a r /\ Js.isSpace a = false.
Proof.
  induction s as [|a s IH]; simpl; [now left|].
  destruct (Js.isSpace a) eqn:E; [exact IH|].
  right. eauto.
Qed.

Lemma trim_fixed (s : string) : Js.trim (Js.trim s) = Js.trim s.
Proof.
  unfold Js.trim.
  destruct (trimStart_head s) as [E | (a & r & E & Ea)]; rewrite E.
  - reflexivity.
  - destruct (trimEnd_head a r Ea) as [r' E'].
    assert (F : Js.trimStart (Js.trimEnd (String a r))
                = Js.trimEnd (String a r)).
    { rewrite E'. simpl. rewrite Ea. reflexivity. }
    rewrite F. apply trimEnd_fixed.
Qed.

Lemma includes_In (x : string) (xs : list string) :
  Js.includes x xs = true <-> In x xs.
Proof.
  unfold Js.includes. rewrite existsb_exists. split.
  - intros (y & Hy & E). apply String.eqb_eq in E. now subst.
  - intros H. exists x. split; [exact H | apply String.eqb_refl].
Qed.

Lemma includes_app (x : string) (xs ys : list string) :
  Js.includes x (xs ++ ys)%list = Js.includes x xs || Js.includes x ys.
Proof. apply existsb_app. Qed.

Lemma includes_cons (x a : string) (xs : list string) :
  Js.includes x (a :: xs) = (x =? a) || Js.includes x xs.
Proof. reflexivity. Qed.

Lemma includes_perm (x : string) (xs ys : list string) :
  Permutation xs ys -> Js.includes x xs = Js.includes x ys.
Proof.
  intros P. apply eq_true_iff_eq. rewrite !includes_In.
  split; apply Permutation_in; [exact P | now apply Permutation_sym].
Qed.

End StringFacts.

(** ** The chain builder and the loops *)

Section BuilderFacts.

Context {RT : JsRuntime}.

Lemma setMessage_last (m : string) (items : list item) (v : validator)
  (n : bool) (old : option string) :
  setMessage m (items ++ [Validate v n old])%list
  = (items ++ [Validate v n (Some m)])%list.
Proof.
  induction items as [|i items IH]; simpl; [reflexivity|].
  rewrite existsb_app. simpl. rewrite orb_true_r. now rewrite IH.
Qed.

Lemma withMessage_validation (m : string) (v : validator) (c : chain) :
  withMessage m (validation v c) = addItem (Validate v false (Some m)) c.
Proof.
  unfold withMessage, validation, addItem. simpl.
  now rewrite setMessage_last.
Qed.

Lemma withMessage_notEmpty (m : string) (c : chain) :
  withMessage m (notEmpty c) = addItem (Validate IsEmpty true (Some m)) c.
Proof.
  unfold withMessage, notEmpty, addItem. simpl.
  now rewrite setMessage_last.
Qed.

Lemma forEach_app {A S : Type} (f : S -> A -> result S) (xs ys : list A)
  (acc : S) :
  forEach f (xs ++ ys)%list acc
  = (acc' <- forEach f xs acc ;; forEach f ys acc').
Proof.
  revert acc. induction xs as [|x xs IH]; intros acc; simpl; [reflexivity|].
  destruct (f acc x); simpl; [apply IH | reflexivity].
Qed.

Lemma forEach_ext {A S : Type} (f g : S -> A -> result S) (xs : list A)
  (acc : S) :
  (forall s a, f s a = g s a) -> forEach f xs acc = forEach g xs acc.
Proof.
  intros E. revert acc. induction xs as [|x xs IH]; intros acc; simpl;
    [reflexivity|].
  rewrite E. destruct (g acc x); simpl; [apply IH | reflexivity].
Qed.

Lemma numericTag_In (allRules : list string) :
  numericTag allRules = true
  <-> In "integer" allRules \/ In "numeric" allRules.
Proof.
  unfold numericTag. rewrite orb_true_iff, !includes_In. reflexivity.
Qed.

Lemma numericTag_perm (xs ys : list string) :
  Permutation xs ys -> numericTag xs = numericTag ys.
Proof.
  intros P. unfold numericTag.
  now rewrite (includes_perm "integer" xs ys P),
    (includes_perm "numeric" xs ys P).
Qed.

(** The sibling tokens reach a parameterized rule only through
    [numericTag]. *)
Lemma applyParamRule_tag (chain : slot) (field ruleName params : string)
  (xs ys : list string) :
  numericTag xs = numericTag ys ->
  applyParamRule chain field ruleName params xs
  = applyParamRule chain field ruleName params ys.
Proof. intros E. unfold applyParamRule. now rewrite E. Qed.

Lemma applyRule_tag (field : string) (xs ys : list string) (chain : slot)
  (rule : string) :
  numericTag xs = numericTag ys ->
  applyRule field xs chain rule = applyRule field ys chain rule.
Proof.
  intros E. unfold applyRule.
  destruct (Js.contains ":" rule); [|reflexivity].
  destruct (Js.indexOf ":" rule); [|reflexivity].
  now apply applyParamRule_tag.
Qed.

(** A token that is neither [integer] nor [numeric] does not change
    the tag. *)
Lemma numericTag_without (pre post : list string) (rule : string) :
  rule <> "integer" -> rule <> "numeric" ->
  numericTag (pre ++ rule :: post)%list = numericTag (pre ++ post)%list.
Proof.
  intros Hi Hn. unfold numericTag. rewrite !includes_app, !includes_cons.
  apply String.eqb_neq in Hi, Hn.
  rewrite String.eqb_sym in Hi. rewrite String.eqb_sym in Hn.
  now rewrite Hi, Hn.
Qed.

(** A token the loop leaves the chain unchanged on, whatever the
    chain, can be taken out of the rule list. *)
Lemma build_without (field rule : string) (pre post : list string)
  (customRules : list CustomRule) :
  rule <> "integer" -> rule <> "numeric" ->
  (forall allRules chain, applyRule field allRules chain rule = Ok chain) ->
  build field (pre ++ rule :: post)%list customRules
  = build field (pre ++ post)%list customRules.
Proof.
  intros Hi Hn Hnoop. unfold build.
  rewrite (forEach_ext _ (applyRule field (pre ++ post)%list))
    by (intros; apply applyRule_tag; now apply numericTag_without).
  rewrite !forEach_app. simpl.
  destruct (forEach _ pre _); simpl; [|reflexivity].
  now rewrite Hnoop.
Qed.

Lemma contains_colon_not_tag (rule : string) :
  Js.contains ":" rule = true -> rule <> "integer" /\ rule <> "numeric".
Proof. intros H; split; intros ->; discriminate H. Qed.

End BuilderFacts.

(** ** The rule compiler *)

Section CompilerFacts.

Context {RT : JsRuntime}.

Lemma normalize_array (items : list RuleItem) :
  normalize (SpecArray items) = (stringTokens items, customPredicates items).
Proof.
  unfold normalize.
  enough (G : forall (acc : list string * list CustomRule),
             fold_left
               (fun (acc : list string * list CustomRule) r =>
                  match r with
                  | RuleString s => ((fst acc ++ [s])%list, snd acc)
                  | RuleObject c => (fst acc, (snd acc ++ [c])%list)
                  end) items acc
             = ((fst acc ++ stringTokens items)%list,
                (snd acc ++ customPredicates items)%list))
    by apply (G ([], [])).
  induction items as [|r items IH]; intros [fr cr]; simpl.
  - now rewrite !app_nil_r.
  - rewrite IH. destruct r; simpl; now rewrite <- ?app_assoc.
Qed.

Lemma applyParamRule_unknown (chain : slot) (field ruleName params : string)
  (allRules : list string) :
  ~ In ruleName parameterizedRules ->
  applyParamRule chain field ruleName params allRules = Ok chain.
Proof.
  intros H. unfold applyParamRule.
  repeat match goal with
         | |- context [String.eqb ruleName ?k] =>
             destruct (String.eqb_spec ruleName k) as [E|_];
             [exfalso; apply H; rewrite E; simpl; tauto|]
         end.
  reflexivity.
Qed.

Lemma applyParamRule_no_comma (chain : slot) (field ruleName params : string)
  (allRules : list string) :
  In ruleName ["required_if"; "required_unless"; "prohibited_if"] ->
  Js.indexOf "," params = None ->
  applyParamRule chain field ruleName params allRules = Ok chain.
Proof.
  intros H E. unfold applyParamRule. rewrite E.
  simpl in H. destruct H as [<-|[<-|[<-|[]]]]; reflexivity.
Qed.

(** The split at the first colon. *)
Lemma indexOf_append (c : ascii) (name rest : string) :
  Js.indexOf c name = None ->
  Js.indexOf c (name ++ String c rest) = Some (String.length name).
Proof.
  induction name as [|a name IH]; simpl; intros H.
  - now rewrite Ascii.eqb_refl.
  - destruct (Ascii.eqb a c); [discriminate|].
    destruct (Js.indexOf c name); [discriminate|].
    now rewrite IH.
Qed.

Lemma take_append (name rest : string) :
  Js.take (String.length name) (name ++ rest) = name.
Proof. induction name; simpl; [now destruct rest | now f_equal]. Qed.

Lemma drop_append (c : ascii) (name rest : string) :
  Js.drop (String.length name + 1) (name ++ String c rest) = rest.
Proof. induction name; simpl; [reflexivity | assumption]. Qed.

Lemma applyRule_param (field name params : string) (allRules : list string)
  (chain : slot) :
  Js.indexOf ":" name = None ->
  applyRule field allRules chain (name ++ ":" ++ params)
  = applyParamRule chain field name params allRules.
Proof.
  intros H. unfold applyRule, Js.contains.
  change (name ++ ":" ++ params) with (name ++ String ":" params).
  rewrite (indexOf_append _ _ _ H), take_append, drop_append.
  reflexivity.
Qed.

Lemma contains_append (c : ascii) (name rest : string) :
  Js.contains c (name ++ String c rest) = true.
Proof.
  unfold Js.contains. induction name as [|a name IH]; simpl.
  - now rewrite Ascii.eqb_refl.
  - destruct (Ascii.eqb a c); [reflexivity|].
    destruct (Js.indexOf c (name ++ String c rest)); [reflexivity|discriminate].
Qed.

Lemma stringTokens_app (xs ys : list RuleItem) :
  stringTokens (xs ++ ys) = (stringTokens xs ++ stringTokens ys)%list.
Proof. apply flat_map_app. Qed.

Lemma customPredicates_app (xs ys : list RuleItem) :
  customPredicates (xs ++ ys)
  = (customPredicates xs ++ customPredicates ys)%list.
Proof. apply flat_map_app. Qed.

Lemma ignoredToken_intro (field rule : string) :
  rule <> "integer" -> rule <> "numeric" ->
  (forall allRules chain, applyRule field allRules chain rule = Ok chain) ->
  ignoredToken field rule.
Proof.
  intros Hi Hn A.
  assert (B : forall pre post customRules,
             build field (pre ++ rule :: post) customRules
             = build field (pre ++ post) customRules)
    by (intros; now apply build_without).
  split; [exact A|]. split; [exact B|]. split.
  - intros before after. unfold compileField.
    rewrite !normalize_array. cbn [fst snd].
    rewrite !stringTokens_app, !customPredicates_app. apply B.
  - intros rawRules rawRules' pre post E E'. unfold compileField.
    cbn [normalize fst snd]. rewrite E, E'. apply B.
Qed.

Lemma numericTag_app (xs ys : list string) :
  numericTag (xs ++ ys) = numericTag xs || numericTag ys.
Proof.
  unfold numericTag. rewrite !includes_app.
  destruct (Js.includes "integer" xs), (Js.includes "integer" ys),
    (Js.includes "numeric" xs), (Js.includes "numeric" ys); reflexivity.
Qed.

(** Where a token stands in the loop: the tokens before it, the token,
    the tokens after it, then the custom predicates, all with the full
    token list at hand. *)
Lemma build_at (field rule : string) (pre post : list string)
  (customRules : list CustomRule) :
  build field (pre ++ rule :: post) customRules
  = (before <- forEach (applyRule field (pre ++ rule :: post)) pre
                 (AChain (check field)) ;;
     here <- applyRule field (pre ++ rule :: post) before rule ;;
     after <- forEach (applyRule field (pre ++ rule :: post)) post here ;;
     forEach applyCustom customRules after).
Proof.
  unfold build. rewrite forEach_app. cbn [forEach].
  destruct (forEach _ pre _) as [before|]; cbn [bind]; [|reflexivity].
  destruct (applyRule _ _ before rule); reflexivity.
Qed.

End CompilerFacts.

(** C1 — a [min:N], [max:N] or [between:N,M] token compiles to a numeric
    comparison ([isFloat], message without a unit) when the field's
    token list contains [integer] or [numeric], and to a length
    comparison ([isLength], message ending in " characters") otherwise;
    the choice is the same for every reordering of the token list. *)
Theorem bounds_follow_numeric_tag {RT : JsRuntime} (c : chain)
  (field params : string) (allRules allRules' : list string) :
  Permutation allRules allRules' ->
  let N := parseInt10 params in
  let parts := map Number (Js.split "," params) in
  let lo := nth_error parts 0 in
  let hi := nth_error parts 1 in
  let outcome := fun numeric length : item =>
    Ok (AChain (addItem (if numericTag allRules then numeric else length) c)) in
  (numericTag allRules = true
   <-> In "integer" allRules \/ In "numeric" allRules)
  /\ applyRule field allRules (AChain c) ("min:" ++ params)
     = outcome
         (Validate (IsFloat {| min := Some N; max := None |}) false
            (Some (field ++ " must be at least " ++ numToString N)))
         (Validate (IsLength {| min := Some N; max := None |}) false
            (Some (field ++ " must be at least " ++ numToString N
                         ++ " characters")))
  /\ applyRule field allRules (AChain c) ("max:" ++ params)
     = outcome
         (Validate (IsFloat {| min := None; max := Some N |}) false
            (Some (field ++ " must be at most " ++ numToString N)))
         (Validate (IsLength {| min := None; max := Some N |}) false
            (Some (field ++ " must be at most " ++ numToString N
                         ++ " characters")))
  /\ applyRule field allRules (AChain c) ("between:" ++ params)
     = outcome
         (Validate (IsFloat {| min := lo; max := hi |}) false
            (Some (field ++ " must be between " ++ show lo ++ " and "
                         ++ show hi)))
         (Validate (IsLength {| min := lo; max := hi |}) false
            (Some (field ++ " must be between " ++ show lo ++ " and "
                         ++ show hi ++ " characters")))
  /\ (forall v rule,
         applyRule field allRules' v rule = applyRule field allRules v rule)
  /\ (forall pre post rule customRules,
         build field (pre ++ rule :: post) customRules
         = (before <- forEach (applyRule field (pre ++ rule :: post)) pre
                        (AChain (check field)) ;;
            here <- applyRule field (pre ++ rule :: post) before rule ;;
            after <- forEach (applyRule field (pre ++ rule :: post)) post
                       here ;;
            forEach applyCustom customRules after)
         /\ numericTag (pre ++ rule :: post)
            = numericTag pre || numericTag (rule :: post)).
Proof.
  intros P N parts lo hi outcome. subst outcome.
  split; [apply numericTag_In|].
  split; [|split; [|split; [|split]]].
  - change ("min:" ++ params) with ("min" ++ ":" ++ params).
    rewrite (applyRule_param field "min") by reflexivity.
    unfold applyParamRule; simpl.
    destruct (numericTag allRules); simpl; unfold isFloat, isLength;
      now rewrite withMessage_validation.
  - change ("max:" ++ params) with ("max" ++ ":" ++ params).
    rewrite (applyRule_param field "max") by reflexivity.
    unfold applyParamRule; simpl.
    destruct (numericTag allRules); simpl; unfold isFloat, isLength;
      now rewrite withMessage_validation.
  - change ("between:" ++ params) with ("between" ++ ":" ++ params).
    rewrite (applyRule_param field "between") by reflexivity.
    unfold applyParamRule; simpl.
    destruct (numericTag allRules); simpl; unfold isFloat, isLength;
      now rewrite withMessage_validation.
  - intros v rule. apply applyRule_tag. symmetry.
    now apply numericTag_perm.
  - intros pre post rule customRules.
    split; [apply build_at | apply numericTag_app].
Qed.

(** C3 — a [required_if], [required_unless] or [prohibited_if] token
    whose parameter has no comma returns the chain as it is, without
    throwing, and the field compiles to what it compiles to without the
    token: no check is added, so no record can fail on it. *)
Theorem malformed_conditional_is_noop {RT : JsRuntime}
  (field ruleName params : string) :
  In ruleName ["required_if"; "required_unless"; "prohibited_if"] ->
  Js.indexOf "," params = None ->
  (forall allRules chain,
      applyParamRule chain field ruleName params allRules = Ok chain)
  /\ ignoredToken field (ruleName ++ ":" ++ params).
Proof.
  intros H E.
  assert (A : forall allRules chain,
             applyParamRule chain field ruleName params allRules = Ok chain)
    by (intros; now apply applyParamRule_no_comma).
  assert (N : Js.indexOf ":" ruleName = None)
    by (simpl in H; destruct H as [<-|[<-|[<-|[]]]]; reflexivity).
  split; [exact A|].
  destruct (contains_colon_not_tag (ruleName ++ ":" ++ params)
              (contains_append ":" ruleName params)).
  apply ignoredToken_intro; [assumption | assumption |].
  intros. rewrite applyRule_param by exact N. apply A.
Qed.

(** C9 — a token with a colon whose name before the first colon is not
    a case of the [switch] returns the chain as it is, without throwing,
    and the field compiles to what it compiles to without the token. *)
Theorem unknown_parameterized_rule_ignored {RT : JsRuntime}
  (field ruleName params : string) :
  Js.indexOf ":" ruleName = None ->
  ~ In ruleName parameterizedRules ->
  (forall allRules chain,
      applyParamRule chain field ruleName params allRules = Ok chain)
  /\ ignoredToken field (ruleName ++ ":" ++ params).
Proof.
  intros N H.
  assert (A : forall allRules chain,
             applyParamRule chain field ruleName params allRules = Ok chain)
    by (intros; now apply applyParamRule_unknown).
  split; [exact A|].
  destruct (contains_colon_not_tag (ruleName ++ ":" ++ params)
              (contains_append ":" ruleName params)).
  apply ignoredToken_intro; [assumption | assumption |].
  intros. rewrite applyRule_param by exact N. apply A.
Qed.

(** ** What a rule can do to a chain *)

Create HintDb chain_grows.

Section Growth.

Context {RT : JsRuntime}.

Lemma extends_refl (c : chain) : extends c c.
Proof. split; [reflexivity | exists []; now rewrite app_nil_r]. Qed.

Lemma extends_trans (a b c : chain) :
  extends a b -> extends b c -> extends a c.
Proof.
  intros [Pa [m Ha]] [Pb [n Hb]]. split; [congruence|].
  exists (m ++ n)%list. rewrite Hb, Ha. now rewrite app_assoc.
Qed.

Lemma grows_widens (f : chain -> chain) : grows f -> widens f.
Proof. intros G c. apply G. Qed.

Lemma widens_optional : widens optional.
Proof.
  intros c. split; [reflexivity | exists []; simpl; now rewrite app_nil_r].
Qed.

Lemma widens_optionalNullable : widens optionalNullable.
Proof.
  intros c. split; [reflexivity | exists []; simpl; now rewrite app_nil_r].
Qed.

Lemma call_widens (f : chain -> chain) (v : slot) (c' : chain) :
  widens f -> call f v = Ok (AChain c') ->
  exists c, v = AChain c /\ extends c c' /\ c' = f c.
Proof.
  intros G H. destruct v as [c|o]; simpl in H; [|discriminate].
  injection H as <-. exists c. auto.
Qed.

Lemma call_grows (f : chain -> chain) (v : slot) (c' : chain) :
  grows f -> call f v = Ok (AChain c') ->
  exists c, v = AChain c /\ extends c c' /\ skips c' = skips c.
Proof.
  intros G H. destruct v as [c|o]; simpl in H; [|discriminate].
  injection H as <-. exists c. destruct (G c). auto.
Qed.

Lemma unchanged_grows (v : slot) (c' : chain) :
  Ok v = Ok (AChain c') ->
  exists c, v = AChain c /\ extends c c' /\ skips c' = skips c.
Proof.
  intros H. injection H as ->. exists c'.
  split; [reflexivity | split; [apply extends_refl | reflexivity]].
Qed.

End Growth.

#[export] Hint Resolve extends_refl extends_trans grows_widens
  widens_optional widens_optionalNullable : chain_grows.

Section LoopFacts.

Context {RT : JsRuntime}.

(** Each method sequence of [index.ts] adds its items at the end. *)
Ltac solve_grows :=
  intros ?c;
  unfold isEmail, isString, isInt, isFloat, isBoolean, isURL, isArray,
    isObject, isJSON, isUUID, isAlpha, isAlphanumeric, isLength, matches,
    custom;
  rewrite ?withMessage_validation, ?withMessage_notEmpty;
  unfold validation, bail, trim, customSanitizer, addItem; simpl;
  split; [split; [reflexivity
                 | eexists; rewrite <- ?app_assoc; reflexivity]
         | reflexivity].

Ltac grows_by H :=
  first [ exact (unchanged_grows _ _ H)
        | discriminate H
        | eapply call_grows; [|exact H]; solve_grows ].

Lemma applyParamRule_grows (v : slot) (field ruleName params : string)
  (allRules : list string) (c' : chain) :
  applyParamRule v field ruleName params allRules = Ok (AChain c') ->
  exists c, v = AChain c /\ extends c c' /\ skips c' = skips c.
Proof.
  unfold applyParamRule.
  repeat match goal with
         | |- context [if ?b then _ else _] => destruct b
         | |- context [match Js.indexOf ?a ?b with _ => _ end] =>
             destruct (Js.indexOf a b)
         | |- context [match ?s with AChain _ => _ | NotAChain _ => _ end] =>
             destruct s as [?|[]]
         end.
  all: intros H; grows_by H.
Qed.

Lemma callInherited_chain (member : inherited) (v : slot) (c' : chain) :
  callInherited member v = Ok (AChain c') -> v = AChain c'.
Proof.
  destruct member; simpl; intros H; try discriminate H.
  destruct v as [c|[]]; simpl in H; congruence.
Qed.

Lemma own_grows (rule : string) (fn : slot -> string -> result slot)
  (v : slot) (field : string) (c' : chain) :
  assoc rule basicValidators = Some fn ->
  fn v field = Ok (AChain c') ->
  exists c, v = AChain c /\ extends c c'
            /\ (rule <> "optional" -> rule <> "nullable" ->
                skips c' = skips c).
Proof.
  unfold basicValidators. cbn [assoc].
  repeat match goal with
         | |- context [if String.eqb ?k rule then _ else _] =>
             destruct (String.eqb_spec k rule) as [<-|_]
         end.
  all: intros E H; try discriminate E; injection E as <-.
  all: try (eapply call_grows in H;
            [destruct H as (c & -> & X & S); exists c; now auto
            | solve_grows]).
  - destruct (call_widens _ _ _ widens_optional H) as (c & -> & X & _).
    exists c. split; [reflexivity|]. split; [exact X | congruence].
  - destruct (call_widens _ _ _ widens_optionalNullable H)
      as (c & -> & X & _).
    exists c. split; [reflexivity|]. split; [exact X | congruence].
Qed.

Lemma applyRule_grows (field : string) (allRules : list string) (v : slot)
  (rule : string) (c' : chain) :
  applyRule field allRules v rule = Ok (AChain c') ->
  exists c, v = AChain c /\ extends c c'
            /\ (rule <> "optional" -> rule <> "nullable" ->
                skips c' = skips c).
Proof.
  unfold applyRule, lookup.
  destruct (Js.contains ":" rule).
  - destruct (Js.indexOf ":" rule); intros H.
    + destruct (applyParamRule_grows _ _ _ _ _ _ H) as (c & -> & X & S).
      exists c. auto.
    + destruct (unchanged_grows _ _ H) as (c & -> & X & S). exists c. auto.
  - destruct (assoc rule basicValidators) as [fn|] eqn:E.
    + now apply own_grows.
    + destruct (assoc rule Object_prototype); intros H.
      * apply callInherited_chain in H. subst v. exists c'.
        auto with chain_grows.
      * destruct (unchanged_grows _ _ H) as (c & -> & X & S).
        exists c. auto.
Qed.

Lemma rules_grow (field : string) (allRules rules : list string) (v : slot)
  (c' : chain) :
  forEach (applyRule field allRules) rules v = Ok (AChain c') ->
  exists c, v = AChain c /\ extends c c'
            /\ (~ In "optional" rules -> ~ In "nullable" rules ->
                skips c' = skips c).
Proof.
  revert v. induction rules as [|rule rules IH]; intros v; simpl.
  - intros H. destruct (unchanged_grows _ _ H) as (c & -> & X & S).
    exists c. auto.
  - destruct (applyRule field allRules v rule) as [v1|] eqn:E; simpl;
      [|discriminate].
    intros H. destruct (IH _ H) as (c1 & -> & X1 & S1).
    destruct (applyRule_grows _ _ _ _ _ E) as (c & -> & X & S).
    exists c. split; [reflexivity|]. split; [eauto with chain_grows|].
    intros Ho Hn. rewrite S1, S; intuition congruence.
Qed.

Lemma customs_append (customRules : list CustomRule) (c : chain) :
  forEach applyCustom customRules (AChain c)
  = Ok (AChain {| path := path c;
                  stack := stack c ++ map customItem customRules;
                  skips := skips c |}).
Proof.
  revert c. induction customRules as [|r rs IH]; intros c; simpl.
  - rewrite app_nil_r. now destruct c.
  - rewrite IH. simpl. now rewrite <- app_assoc.
Qed.

Lemma customs_need_chain (customRules : list CustomRule) (o : other)
  (c' : chain) :
  forEach applyCustom customRules (NotAChain o) <> Ok (AChain c').
Proof. destruct customRules; simpl; discriminate. Qed.

(** Whatever [build] returns as a chain is [check(field)] with items
    added. *)
Lemma build_chain (field : string) (fieldRules : list string)
  (customRules : list CustomRule) (c' : chain) :
  build field fieldRules customRules = Ok (AChain c') ->
  path c' = field
  /\ (~ In "optional" fieldRules -> ~ In "nullable" fieldRules ->
      skips c' = Mandatory).
Proof.
  unfold build.
  destruct (forEach (applyRule field fieldRules) fieldRules
              (AChain (check field))) as [[c1|o]|] eqn:E; simpl;
    [| intros H; now apply customs_need_chain in H | discriminate].
  rewrite customs_append. intros H. injection H as <-. simpl.
  destruct (rules_grow _ _ _ _ _ E) as (c & Ec & [P _] & S).
  injection Ec as <-. split; [exact P | exact S].
Qed.

(** With [required] as the first token, the chain starts with the
    emptiness check and [bail]. *)
Lemma build_required_first (field : string) (rest : list string)
  (customRules : list CustomRule) (c' : chain) :
  build field ("required" :: rest) customRules = Ok (AChain c') ->
  exists more,
    stack c' = Validate IsEmpty true (Some (field ++ " is required"))
               :: Bail :: more.
Proof.
  unfold build. cbn [forEach].
  change (applyRule field ("required" :: rest) (AChain (check field))
            "required")
    with (Ok (AChain (bail (withMessage (field ++ " is required")
                              (notEmpty (check field)))))).
  rewrite withMessage_notEmpty. cbn [bind].
  destruct (forEach _ rest _) as [[c1|o]|] eqn:E; simpl;
    [| intros H; now apply customs_need_chain in H | discriminate].
  rewrite customs_append. intros H. injection H as <-. simpl.
  destruct (rules_grow _ _ _ _ _ E) as (c & Ec & [_ [more M]] & _).
  injection Ec as <-. rewrite M. simpl. eauto.
Qed.

End LoopFacts.

(** ** Records and runs *)

Section RunnerFacts.

Context {RT : JsRuntime} {LIB : Library}.

Lemma get_set_same (key : string) (v : value) (b : record) :
  get key (set key v b) = v.
Proof.
  induction b as [|[k w] b IH]; simpl.
  - now rewrite String.eqb_refl.
  - destruct (String.eqb k key) eqn:E; simpl; now rewrite E.
Qed.

Lemma get_set_other (key g : string) (v : value) (b : record) :
  g <> key -> get g (set key v b) = get g b.
Proof.
  intros N. induction b as [|[k w] b IH]; simpl.
  - destruct (String.eqb_spec key g); [congruence | reflexivity].
  - destruct (String.eqb_spec k key) as [->|]; simpl.
    + destruct (String.eqb_spec key g); [congruence | reflexivity].
    + now rewrite IH.
Qed.

Lemma has_false_get (key : string) (b : record) :
  has key b = false -> get key b = VUndefined.
Proof.
  unfold has. induction b as [|[k w] b IH]; simpl; [reflexivity|].
  destruct (String.eqb k key); simpl; [discriminate | exact IH].
Qed.

Lemma get_store_same (key : string) (v : value) (b : record) :
  get key (store key v b) = v.
Proof.
  unfold store. destruct v; try apply get_set_same.
  destruct (has key b) eqn:E; [apply get_set_same | now apply has_false_get].
Qed.

Lemma get_store_other (key g : string) (v : value) (b : record) :
  g <> key -> get g (store key v b) = get g b.
Proof.
  intros N. unfold store. destruct v; try now apply get_set_other.
  destruct (has key b); [now apply get_set_other | reflexivity].
Qed.

Lemma runItems_app (field : string) (o : optionality) (xs ys : list item)
  (st : state) :
  runItems field o (xs ++ ys) st
  = runItems field o ys (runItems field o xs st).
Proof. apply fold_left_app. Qed.

Lemma runItem_halted (field : string) (o : optionality) (st : state)
  (i : item) :
  halted st = true -> runItem field o st i = st.
Proof. intros H. unfold runItem. now rewrite H. Qed.

Lemma runItems_halted (field : string) (o : optionality)
  (items : list item) (st : state) :
  halted st = true -> runItems field o items st = st.
Proof.
  intros H. induction items as [|i items IH]; [reflexivity|].
  change (runItems field o (i :: items) st)
    with (runItems field o items (runItem field o st i)).
  now rewrite runItem_halted.
Qed.

(** A chain only writes its own field... *)
Lemma runItem_frame (field g : string) (o : optionality) (st : state)
  (i : item) :
  g <> field -> get g (body (runItem field o st i)) = get g (body st).
Proof.
  intros N. unfold runItem.
  destruct (halted st || skipped o (get field (body st)));
    [reflexivity|].
  destruct i; simpl; [reflexivity | now apply get_store_other | reflexivity].
Qed.

Lemma runItems_frame (field g : string) (o : optionality)
  (items : list item) (st : state) :
  g <> field -> get g (body (runItems field o items st)) = get g (body st).
Proof.
  intros N. revert st. induction items as [|i items IH]; intros st;
    [reflexivity|].
  change (runItems field o (i :: items) st)
    with (runItems field o items (runItem field o st i)).
  rewrite IH. now apply runItem_frame.
Qed.

Lemma run_frame (c : chain) (g : string) (b : record) :
  g <> path c -> get g (fst (run c b)) = get g b.
Proof. intros N. unfold run. simpl. now rewrite runItems_frame. Qed.

(** ...and only reports on its own field. *)
Lemma runItem_paths (field : string) (o : optionality) (st : state)
  (i : item) :
  Forall (fun e => err_path e = field) (errors st) ->
  Forall (fun e => err_path e = field) (errors (runItem field o st i)).
Proof.
  intros F. unfold runItem.
  destruct (halted st || skipped o (get field (body st))); [exact F|].
  destruct i; simpl; try exact F.
  apply Forall_app. split; [exact F|].
  apply Forall_forall. intros e He. apply in_map_iff in He.
  destruct He as (m & <- & _). reflexivity.
Qed.

Lemma runItems_paths (field : string) (o : optionality)
  (items : list item) (st : state) :
  Forall (fun e => err_path e = field) (errors st) ->
  Forall (fun e => err_path e = field) (errors (runItems field o items st)).
Proof.
  revert st. induction items as [|i items IH]; intros st F; [exact F|].
  change (runItems field o (i :: items) st)
    with (runItems field o items (runItem field o st i)).
  apply IH. now apply runItem_paths.
Qed.

Lemma run_paths (c : chain) (b : record) :
  Forall (fun e => err_path e = path c) (snd (run c b)).
Proof. unfold run. simpl. apply runItems_paths. constructor. Qed.

Lemma filter_all {A : Type} (p : A -> bool) (xs : list A) :
  Forall (fun x => p x = true) xs -> filter p xs = xs.
Proof.
  induction 1 as [|x xs H _ IH]; simpl; [reflexivity|].
  now rewrite H, IH.
Qed.

Lemma filter_none {A : Type} (p : A -> bool) (xs : list A) :
  Forall (fun x => p x = false) xs -> filter p xs = [].
Proof.
  induction 1 as [|x xs H _ IH]; simpl; [reflexivity|].
  now rewrite H, IH.
Qed.

Lemma errorsOf_own (c : chain) (b : record) :
  errorsOf (path c) (snd (run c b)) = snd (run c b).
Proof.
  apply filter_all. eapply Forall_impl; [|apply run_paths].
  simpl. intros e ->. apply String.eqb_refl.
Qed.

Lemma errorsOf_other (c : chain) (g : string) (b : record) :
  g <> path c -> errorsOf g (snd (run c b)) = [].
Proof.
  intros N. apply filter_none. eapply Forall_impl; [|apply run_paths].
  simpl. intros e ->. apply String.eqb_neq. congruence.
Qed.

Lemma errorsOf_app (g : string) (xs ys : list error) :
  errorsOf g (xs ++ ys) = (errorsOf g xs ++ errorsOf g ys)%list.
Proof. apply filter_app. Qed.

(** Chains of other fields leave a field and its errors alone. *)
Lemma runAll_others (cs : list chain) (g : string) (b : record) :
  Forall (fun c => g <> path c) cs ->
  get g (fst (runAll cs b)) = get g b
  /\ errorsOf g (snd (runAll cs b)) = [].
Proof.
  intros F. revert b. induction F as [|c cs N _ IH]; intros b;
    cbn [runAll fst snd].
  - split; reflexivity.
  - destruct (IH (fst (run c b))) as [G E]. split.
    + rewrite G. now apply run_frame.
    + rewrite errorsOf_app, E, errorsOf_other by exact N. reflexivity.
Qed.

End RunnerFacts.

(** ** A whole configuration *)

Section PipelineFacts.

Context {RT : JsRuntime} {LIB : Library}.

Lemma forEach_entries (rules : RuleConfig) (acc validators : list slot) :
  forEach
    (fun validators entry =>
       chain <- compileField (fst entry) (snd entry) ;;
       Ok (validators ++ [chain])%list)
    rules acc = Ok validators ->
  exists added,
    validators = (acc ++ added)%list
    /\ Forall2 (fun entry v => compileField (fst entry) (snd entry) = Ok v)
         rules added.
Proof.
  revert acc. induction rules as [|e rules IH]; intros acc; simpl.
  - intros H. injection H as <-. exists []. now rewrite app_nil_r.
  - destruct (compileField (fst e) (snd e)) as [v|] eqn:E; simpl;
      [|discriminate].
    intros H. destruct (IH _ H) as (added & -> & F).
    exists (v :: added). rewrite <- app_assoc. auto.
Qed.

Lemma chains_all (validators : list slot) (cs : list chain) :
  chains validators = Some cs ->
  Forall2 (fun v c => v = AChain c) validators cs.
Proof.
  revert cs. induction validators as [|[c|o] vs IH]; intros cs; simpl.
  - intros H. injection H as <-. constructor.
  - destruct (chains vs) as [cs'|]; simpl; [|discriminate].
    intros H. injection H as <-. auto.
  - discriminate.
Qed.

Lemma makeValidators_compiled (rules : RuleConfig)
  (validators : list slot) (cs : list chain) :
  makeValidators rules = Ok validators ->
  chains validators = Some cs ->
  compiled rules cs.
Proof.
  intros M C. apply forEach_entries in M. destruct M as (added & -> & F).
  apply chains_all in C. simpl in C.
  revert cs C. induction F as [|e v rules vs E _ IH]; intros cs C.
  - inversion C. constructor.
  - inversion C as [|? c ? cs' Ev C']; subst.
    constructor; [exact E | exact (IH _ C')].
Qed.

Lemma compileField_path (field : string) (rawRules : RuleSpec) (c : chain) :
  compileField field rawRules = Ok (AChain c) -> path c = field.
Proof. intros H. now apply build_chain in H. Qed.

Lemma compiled_paths (rules : RuleConfig) (cs : list chain) :
  compiled rules cs -> map path cs = map fst rules.
Proof.
  induction 1 as [|e c rules cs E _ IH]; simpl; [reflexivity|].
  now rewrite IH, (compileField_path _ _ _ E).
Qed.

(** The chain of a field meets the field as the request had it, and
    is the only one to report on it and to change it. *)
Lemma own_field (rules : RuleConfig) (cs : list chain) (field : string)
  (rawRules : RuleSpec) (b : record) :
  compiled rules cs ->
  NoDup (map fst rules) ->
  In (field, rawRules) rules ->
  exists c b1,
    In c cs
    /\ compileField field rawRules = Ok (AChain c)
    /\ get field b1 = get field b
    /\ get field (fst (runAll cs b)) = get field (fst (run c b1))
    /\ errorsOf field (snd (runAll cs b)) = snd (run c b1).
Proof.
  intros C. revert b. induction C as [|e c rules cs E C IH]; intros b D I.
  - destruct I.
  - simpl in D. inversion D as [|? ? Hnot D']; subst.
    pose proof (compileField_path _ _ _ E) as P.
    cbn [runAll fst snd]. destruct I as [->|I].
    + cbn [fst snd] in E, P. exists c, b. split; [now left|]. split; [exact E|].
      split; [reflexivity|].
      assert (F : Forall (fun c' => field <> path c') cs).
      { apply Forall_forall. intros c' Hc' ->. apply Hnot. cbn [fst].
        rewrite <- (compiled_paths _ _ C). now apply in_map. }
      destruct (runAll_others cs field (fst (run c b)) F) as [G Z].
      split; [exact G|].
      rewrite errorsOf_app, Z, app_nil_r, <- P. apply errorsOf_own.
    + assert (N : field <> path c).
      { rewrite P. intros Heq. apply Hnot. rewrite <- Heq.
        change field with (fst (field, rawRules)). now apply in_map. }
      destruct (IH (fst (run c b)) D' I) as (c0 & b1 & Hc & E0 & G1 & G2 & Z).
      exists c0, b1. split; [now right|]. split; [exact E0|].
      split; [rewrite G1; now apply run_frame|].
      split; [exact G2|].
      rewrite errorsOf_app, errorsOf_other by exact N. exact Z.
Qed.

(** With [required] first, a missing or empty field stops its chain
    at the first item. *)
Lemma required_first_run (field : string) (rest : list string)
  (customRules : list CustomRule) (c : chain) (b : record) :
  build field ("required" :: rest) customRules = Ok (AChain c) ->
  get field b = VStr ""
  \/ (get field b = VUndefined
      /\ ~ In "optional" rest /\ ~ In "nullable" rest) ->
  run c b = (b, [{| err_path := field; msg := field ++ " is required" |}]).
Proof.
  intros B V.
  destruct (build_required_first _ _ _ _ B) as [more M].
  destruct (build_chain _ _ _ _ B) as [P S].
  assert (SK : skipped (skips c) (get field b) = false).
  { destruct V as [->|(-> & Ho & Hn)]; [now destruct (skips c)|].
    rewrite S; [reflexivity | |]; simpl; intuition discriminate. }
  assert (FL : failures IsEmpty true (Some (field ++ " is required"))
                 (get field b) b = [field ++ " is required"]).
  { destruct V as [->|(-> & _)]; reflexivity. }
  set (e := {| err_path := field; msg := field ++ " is required" |}).
  set (init := {| body := b; errors := []; halted := false |}).
  assert (R1 : runItem field (skips c) init
                 (Validate IsEmpty true (Some (field ++ " is required")))
               = {| body := b; errors := [e]; halted := false |}).
  { unfold runItem, init. cbn [halted body errors orb].
    now rewrite SK, FL. }
  assert (R2 : runItem field (skips c)
                 {| body := b; errors := [e]; halted := false |} Bail
               = {| body := b; errors := [e]; halted := true |}).
  { unfold runItem. cbn [halted body errors orb]. now rewrite SK. }
  unfold run. rewrite M, P. fold init.
  change (runItems field (skips c) (?i :: ?j :: more) init)
    with (runItems field (skips c) more
            (runItem field (skips c) (runItem field (skips c) init i) j)).
  rewrite R1, R2, runItems_halted by reflexivity. reflexivity.
Qed.

End PipelineFacts.

(** ** The stack of a compiled chain *)

Section StackFacts.

Context {RT : JsRuntime}.

(** What a method sequence of [index.ts] adds does not depend on the
    chain it is called on. *)
Ltac solve_adds H :=
  first
    [ discriminate H
    | exists []; intros ?c; eexists; split; [reflexivity|];
      cbn; now rewrite app_nil_r
    | eexists; intros ?c; eexists; split; [reflexivity|];
      unfold isEmail, isString, isInt, isFloat, isBoolean, isURL, isArray,
        isObject, isJSON, isUUID, isAlpha, isAlphanumeric, isLength,
        matches, custom;
      rewrite ?withMessage_validation, ?withMessage_notEmpty;
      unfold validation, bail, trim, customSanitizer, addItem; simpl;
      rewrite <- ?app_assoc; reflexivity ].

Lemma applyParamRule_adds (field ruleName params : string)
  (allRules : list string) (c0 c1 : chain) :
  applyParamRule (AChain c0) field ruleName params allRules
  = Ok (AChain c1) ->
  exists added, forall c, exists c',
    applyParamRule (AChain c) field ruleName params allRules
    = Ok (AChain c')
    /\ stack c' = (stack c ++ added)%list.
Proof.
  unfold applyParamRule.
  repeat match goal with
         | |- context [if ?b then _ else _] => destruct b
         | |- context [match Js.indexOf ?a ?b with _ => _ end] =>
             destruct (Js.indexOf a b)
         end.
  all: intros H; solve_adds H.
Qed.

Lemma own_adds (rule : string) (fn : slot -> string -> result slot)
  (field : string) (c0 c1 : chain) :
  assoc rule basicValidators = Some fn ->
  fn (AChain c0) field = Ok (AChain c1) ->
  exists added, forall c, exists c',
    fn (AChain c) field = Ok (AChain c')
    /\ stack c' = (stack c ++ added)%list.
Proof.
  unfold basicValidators. cbn [assoc].
  repeat match goal with
         | |- context [if String.eqb ?k rule then _ else _] =>
             destruct (String.eqb_spec k rule) as [<-|_]
         end.
  all: intros E H; try discriminate E; injection E as <-.
  all: solve_adds H.
Qed.

Lemma applyRule_adds (field : string) (allRules : list string)
  (rule : string) (c0 c1 : chain) :
  applyRule field allRules (AChain c0) rule = Ok (AChain c1) ->
  exists added, forall c, exists c',
    applyRule field allRules (AChain c) rule = Ok (AChain c')
    /\ stack c' = (stack c ++ added)%list.
Proof.
  unfold applyRule, lookup.
  destruct (Js.contains ":" rule).
  - destruct (Js.indexOf ":" rule); [apply applyParamRule_adds|].
    intros H. solve_adds H.
  - destruct (assoc rule basicValidators) as [fn|] eqn:E.
    + now apply (own_adds rule).
    + destruct (assoc rule Object_prototype) as [member|]; intros H.
      * destruct member; try discriminate H. solve_adds H.
      * solve_adds H.
Qed.

(** In any position, a token adds its items at the end. *)
Lemma applyRule_items (field : string) (allRules : list string)
  (rule : string) (c0 c1 : chain) :
  applyRule field allRules (AChain c0) rule = Ok (AChain c1) ->
  stack c1 = (stack c0 ++ tokenItems field allRules rule)%list.
Proof.
  intros H. destruct (applyRule_adds _ _ _ _ _ H) as [added A].
  destruct (A c0) as (c' & E0 & S0). rewrite H in E0. injection E0 as <-.
  unfold tokenItems. destruct (A (check field)) as (c' & E & S).
  rewrite E, S, S0. reflexivity.
Qed.

Lemma rules_items (field : string) (allRules rules : list string)
  (c0 c1 : chain) :
  forEach (applyRule field allRules) rules (AChain c0) = Ok (AChain c1) ->
  stack c1 = (stack c0 ++ flat_map (tokenItems field allRules) rules)%list.
Proof.
  revert c0. induction rules as [|rule rules IH]; intros c0; cbn [forEach].
  - intros H. injection H as <-. cbn [flat_map]. now rewrite app_nil_r.
  - destruct (applyRule field allRules (AChain c0) rule) as [v|] eqn:E;
      cbn [bind]; [|discriminate].
    intros H. destruct (rules_grow _ _ _ _ _ H) as (cm & -> & _).
    rewrite (IH _ H), (applyRule_items _ _ _ _ _ E). cbn [flat_map].
    now rewrite app_assoc.
Qed.

(** The stack of a compiled chain: the items of its string tokens, in
    token order, then one item per custom predicate. *)
Lemma build_stack (field : string) (fieldRules : list string)
  (customRules : list CustomRule) (c : chain) :
  build field fieldRules customRules = Ok (AChain c) ->
  stack c
  = (flat_map (tokenItems field fieldRules) fieldRules
     ++ map customItem customRules)%list.
Proof.
  unfold build.
  destruct (forEach (applyRule field fieldRules) fieldRules
              (AChain (check field))) as [[c1|o]|] eqn:E; cbn [bind];
    [| intros H; now apply customs_need_chain in H | discriminate].
  rewrite customs_append. intros H. injection H as <-. cbn [stack].
  now rewrite (rules_items _ _ _ _ _ E).
Qed.

(** Only [required] stops a chain. *)
Lemma tokenItems_no_bail (field : string) (allRules : list string)
  (rule : string) :
  rule <> "required" ->
  Forall (fun i => i <> Bail) (tokenItems field allRules rule).
Proof.
  intros N. unfold tokenItems, applyRule, lookup.
  destruct (Js.contains ":" rule).
  - destruct (Js.indexOf ":" rule); [|constructor].
    unfold applyParamRule.
    repeat match goal with
           | |- context [if ?b then _ else _] => destruct b
           | |- context [match Js.indexOf ?a ?b with _ => _ end] =>
               destruct (Js.indexOf a b)
           end.
    all: cbn; repeat constructor; discriminate.
  - destruct (assoc rule basicValidators) as [fn|] eqn:E.
    + revert E. unfold basicValidators. cbn [assoc].
      repeat match goal with
             | |- context [if String.eqb ?k rule then _ else _] =>
                 destruct (String.eqb_spec k rule) as [<-|_]
             end.
      all: intros E; try discriminate E; injection E as <-.
      all: try (exfalso; now apply N).
      all: cbn; repeat constructor; discriminate.
    + destruct (assoc rule Object_prototype) as [[]|]; cbn;
        repeat constructor.
Qed.

Lemma default_items (field params : string) (allRules : list string) :
  tokenItems field allRules ("default:" ++ params)
  = [Sanitize (DefaultTo params)].
Proof.
  unfold tokenItems.
  change ("default:" ++ params) with ("default" ++ ":" ++ params).
  now rewrite (applyRule_param field "default") by reflexivity.
Qed.

End StackFacts.

Section ReachingFacts.

Context {RT : JsRuntime} {LIB : Library}.

Lemma skipped_mandatory (v : value) : skipped Mandatory v = false.
Proof. reflexivity. Qed.

(** A chain without [bail] never stops. *)
Lemma runItems_no_bail (field : string) (o : optionality)
  (items : list item) (st : state) :
  Forall (fun i => i <> Bail) items ->
  halted st = false ->
  halted (runItems field o items st) = false.
Proof.
  intros F. revert st. induction F as [|i items N _ IH]; intros st H;
    [exact H|].
  change (runItems field o (i :: items) st)
    with (runItems field o items (runItem field o st i)).
  apply IH. unfold runItem. rewrite H. cbn [orb].
  destruct (skipped o (get field (body st))); [exact H|].
  destruct i; [reflexivity | reflexivity | now contradiction N].
Qed.

(** A chain that skips the value of its field does nothing. *)
Lemma runItems_skipped (field : string) (o : optionality)
  (items : list item) (st : state) :
  skipped o (get field (body st)) = true ->
  runItems field o items st = st.
Proof.
  intros S. induction items as [|i items IH]; [reflexivity|].
  change (runItems field o (i :: items) st)
    with (runItems field o items (runItem field o st i)).
  replace (runItem field o st i) with st; [exact IH|].
  unfold runItem. rewrite S. now rewrite orb_true_r.
Qed.

Lemma tokens_no_bail (field : string) (allRules rules : list string) :
  ~ In "required" rules ->
  Forall (fun i => i <> Bail) (flat_map (tokenItems field allRules) rules).
Proof.
  intros N. apply Forall_flat_map, Forall_forall. intros rule I.
  apply tokenItems_no_bail. intros ->. now apply N.
Qed.

End ReachingFacts.

(** ** Claims about compiled chains and their runs *)

(** C2 (as amended) — for a field whose first rule token is [required],
    a record in which the field is the empty string, or in which it is
    missing while the field is tagged neither [optional] nor [nullable],
    yields exactly one message for that field, "<field> is required":
    the chain stops there, and the request is rejected. *)
Theorem required_first_reports_once {RT : JsRuntime} {LIB : Library}
  (rules : RuleConfig) (validators : list slot) (cs : list chain)
  (field : string) (rawRules : RuleSpec) (rest : list string) (b : record) :
  makeValidators rules = Ok validators ->
  chains validators = Some cs ->
  NoDup (map fst rules) ->
  In (field, rawRules) rules ->
  fst (normalize rawRules) = "required" :: rest ->
  unfilled field rest b ->
  let errs := snd (runAll cs b) in
  let e := {| err_path := field; msg := field ++ " is required" |} in
  errorsOf field errs = [e]
  /\ snd (handle cs b) = Status422 (map msg errs)
  /\ exists c,
       In c cs
       /\ compileField field rawRules = Ok (AChain c)
       /\ forall b', unfilled field rest b' -> run c b' = (b', [e]).
Proof.
  intros M C D I T U errs e.
  pose proof (makeValidators_compiled _ _ _ M C) as K.
  destruct (own_field rules cs field rawRules b K D I)
    as (c & b1 & Hc & E & G & _ & Z).
  assert (R : forall b', unfilled field rest b' -> run c b' = (b', [e])).
  { intros b' U'. unfold compileField in E. rewrite T in E.
    now apply (required_first_run _ _ _ _ _ E). }
  assert (U1 : unfilled field rest b1)
    by (unfold unfilled in *; now rewrite G).
  assert (F : errorsOf field errs = [e])
    by (subst errs; now rewrite Z, (R b1 U1)).
  split; [exact F|]. split; [|now exists c].
  unfold handle. cbn [snd]. fold errs.
  destruct errs; [discriminate F | reflexivity].
Qed.

(** C4 — the lookup [basicValidators[rule]] also finds what the object
    inherits: the token [__proto__], which has no colon and is not a
    known basic rule, makes [makeValidators] throw, and the token
    [toString] replaces the chain by a string. *)
Theorem inherited_name_is_not_ignored {RT : JsRuntime} :
  Js.contains ":" "__proto__" = false
  /\ assoc "__proto__" basicValidators = None
  /\ makeValidators [("name", SpecString "required|__proto__")]
     = Throw TypeError
  /\ makeValidators [("name", SpecString "required")]
     = Ok [AChain {| path := "name";
                     stack := [Validate IsEmpty true (Some "name is required");
                               Bail];
                     skips := Mandatory |}]
  /\ Js.contains ":" "toString" = false
  /\ assoc "toString" basicValidators = None
  /\ makeValidators [("name", SpecString "toString")]
     = Ok [NotAChain (OString "[object Object]")].
Proof. repeat split. Qed.

(** A token without a colon that is neither a known basic rule nor a
    member of [Object.prototype] is ignored. *)
Lemma unknown_basic_rule_ignored {RT : JsRuntime} (field rule : string) :
  Js.contains ":" rule = false ->
  assoc rule basicValidators = None ->
  assoc rule Object_prototype = None ->
  ignoredToken field rule.
Proof.
  intros C B O.
  apply ignoredToken_intro; [intros ->; discriminate B
                            | intros ->; discriminate B |].
  intros. unfold applyRule, lookup. now rewrite C, B, O.
Qed.

(** C5 (as amended) — [default:v] compiles to a transform that
    returns the string [v] for [undefined], [null] and the empty string
    and any other value unchanged.  A run that reaches the transform
    stores what it returns; it reaches it whenever the field is tagged
    neither [optional] nor [nullable] and no [required] stands before
    the [default:v] token.  A run that does not reach it, the chain
    being stopped or the field skipped, leaves the record as it is.  A
    request that omits [nickname] reaches the handler with [nickname]
    set to "Guest" when the field's only rule is [default:Guest],
    whatever the other fields report. *)
Theorem default_fills_blank_values {RT : JsRuntime} {LIB : Library}
  (field params : string) (allRules : list string) (c : chain)
  (rules : RuleConfig) (validators : list slot) (cs : list chain)
  (b : record) :
  makeValidators rules = Ok validators ->
  chains validators = Some cs ->
  NoDup (map fst rules) ->
  In ("nickname", SpecString "default:Guest") rules ->
  get "nickname" b = VUndefined ->
  applyRule field allRules (AChain c) ("default:" ++ params)
  = Ok (AChain (addItem (Sanitize (DefaultTo params)) c))
  /\ (forall v,
         runSanitizer (DefaultTo params) v
         = match v with
           | VUndefined | VNull | VStr EmptyString => VStr params
           | _ => v
           end)
  /\ (forall o st,
         halted st = false ->
         skipped o (get field (body st)) = false ->
         get field (body (runItem field o st (Sanitize (DefaultTo params))))
         = runSanitizer (DefaultTo params) (get field (body st)))
  /\ get "nickname" (fst (handle cs b)) = VStr "Guest"
  /\ (forall o st,
         halted st = true \/ skipped o (get field (body st)) = true ->
         runItem field o st (Sanitize (DefaultTo params)) = st)
  /\ (forall c' b',
         skipped (skips c') (get (path c') b') = true ->
         run c' b' = (b', []))
  /\ (forall pre post customRules c' b',
         let tokens := (pre ++ ("default:" ++ params)%string :: post)%list in
         let before := flat_map (tokenItems field tokens) pre in
         let after :=
           (flat_map (tokenItems field tokens) post
            ++ map customItem customRules)%list in
         let reached :=
           runItems field Mandatory before
             {| body := b'; errors := []; halted := false |} in
         let filled :=
           runItem field Mandatory reached (Sanitize (DefaultTo params)) in
         build field tokens customRules = Ok (AChain c') ->
         ~ In "required" pre ->
         ~ In "optional" tokens ->
         ~ In "nullable" tokens ->
         stack c' = (before ++ Sanitize (DefaultTo params) :: after)%list
         /\ skips c' = Mandatory
         /\ get field (body filled)
            = runSanitizer (DefaultTo params) (get field (body reached))
         /\ run c' b'
            = (body (runItems field Mandatory after filled),
               errors (runItems field Mandatory after filled))).
Proof.
  intros M C D I U. split; [|split; [|split; [|split; [|split; [|split]]]]].
  - change ("default:" ++ params) with ("default" ++ ":" ++ params).
    now rewrite (applyRule_param field "default") by reflexivity.
  - intros v. now destruct v as [| | | | [|] | |].
  - intros o st H S. unfold runItem. rewrite H, S. cbn [orb body].
    apply get_store_same.
  - pose proof (makeValidators_compiled _ _ _ M C) as K.
    destruct (own_field rules cs _ _ b K D I)
      as (c0 & b1 & _ & E & G & G' & _).
    unfold handle. cbn [fst]. rewrite G'.
    change (compileField "nickname" (SpecString "default:Guest"))
      with (Ok (AChain {| path := "nickname";
                          stack := [Sanitize (DefaultTo "Guest")];
                          skips := Mandatory |})) in E.
    injection E as <-. unfold run, runItems.
    cbn [path stack skips fold_left fst].
    unfold runItem. cbn [halted body orb]. rewrite G, U. cbn [skipped].
    apply get_store_same.
  - intros o st [H|S]; unfold runItem; [now rewrite H|].
    rewrite S. now rewrite orb_true_r.
  - intros c' b' S. unfold run.
    now rewrite runItems_skipped by exact S.
  - intros pre post customRules c' b' tokens before after reached filled
      B Nr No Nn.
    pose proof (build_stack _ _ _ _ B) as St.
    destruct (build_chain _ _ _ _ B) as [P Sk].
    specialize (Sk No Nn).
    assert (St' : stack c'
                  = (before ++ Sanitize (DefaultTo params) :: after)%list).
    { rewrite St. unfold tokens at 2. rewrite flat_map_app. cbn [flat_map].
      fold tokens. rewrite default_items, <- !app_assoc. reflexivity. }
    assert (H : halted reached = false)
      by (apply runItems_no_bail; [now apply tokens_no_bail | reflexivity]).
    split; [exact St'|]. split; [exact Sk|]. split.
    + unfold filled, runItem. rewrite H, skipped_mandatory. cbn [orb body].
      apply get_store_same.
    + unfold run. rewrite P, Sk, St', runItems_app. reflexivity.
Qed.

Section PartitionFacts.

Context {RT : JsRuntime}.

Lemma stringTokens_sorted (strings : list string)
  (customs : list CustomRule) :
  stringTokens (map RuleString strings ++ map RuleObject customs)
  = strings.
Proof.
  unfold stringTokens. rewrite flat_map_app.
  replace (flat_map _ (map RuleObject customs)) with (@nil string)
    by (induction customs; simpl; auto).
  rewrite app_nil_r. induction strings as [|x xs IH]; simpl;
    [reflexivity | now f_equal].
Qed.

Lemma customPredicates_sorted (strings : list string)
  (customs : list CustomRule) :
  customPredicates (map RuleString strings ++ map RuleObject customs)
  = customs.
Proof.
  unfold customPredicates. rewrite flat_map_app.
  replace (flat_map _ (map RuleString strings)) with (@nil CustomRule)
    by (induction strings; simpl; auto).
  induction customs as [|x xs IH]; simpl; [reflexivity | now f_equal].
Qed.

End PartitionFacts.

(** C6 — an array of rules compiles to the chain of its string tokens,
    in their order, followed by one item per custom predicate, in their
    order, wherever the predicates stood in the array: every token adds
    its items at the end of the chain ([required] the emptiness check
    and [bail], [email] the address check, and so on), so the stack of
    the compiled chain is the items of the first token, then those of
    the second, and so on, then the predicates; a run takes the items
    in that order. *)
Theorem customs_run_after_strings {RT : JsRuntime} {LIB : Library}
  (field : string) (items : list RuleItem) :
  let strings := stringTokens items in
  let customs := customPredicates items in
  normalize (SpecArray items) = (strings, customs)
  /\ compileField field (SpecArray items)
     = (chain <- forEach (applyRule field strings) strings
                   (AChain (check field)) ;;
        forEach applyCustom customs chain)
  /\ (forall c,
         forEach applyCustom customs (AChain c)
         = Ok (AChain {| path := path c;
                         stack := stack c ++ map customItem customs;
                         skips := skips c |}))
  /\ compileField field (SpecArray items)
     = compileField field
         (SpecArray (map RuleString strings ++ map RuleObject customs))
  /\ (forall o first second st,
         runItems field o (first ++ second) st
         = runItems field o second (runItems field o first st))
  /\ tokenItems field strings "required"
     = [Validate IsEmpty true (Some (field ++ " is required")); Bail]
  /\ tokenItems field strings "email"
     = [Validate IsEmail false (Some (field ++ " must be a valid email"))]
  /\ (forall rule c0 c1,
         applyRule field strings (AChain c0) rule = Ok (AChain c1) ->
         stack c1 = (stack c0 ++ tokenItems field strings rule)%list)
  /\ (forall c,
         compileField field (SpecArray items) = Ok (AChain c) ->
         let fromStrings := flat_map (tokenItems field strings) strings in
         let fromCustoms := map customItem customs in
         stack c = (fromStrings ++ fromCustoms)%list
         /\ forall b,
              let afterStrings :=
                runItems field (skips c) fromStrings
                  {| body := b; errors := []; halted := false |} in
              let afterCustoms :=
                runItems field (skips c) fromCustoms afterStrings in
              run c b = (body afterCustoms, errors afterCustoms)).
Proof.
  intros strings customs.
  assert (N : normalize (SpecArray items) = (strings, customs))
    by apply normalize_array.
  split; [exact N|]. split; [unfold compileField; now rewrite N|].
  split; [intros c; apply customs_append|].
  split; [|split; [intros; apply runItems_app|]].
  - unfold compileField.
    now rewrite N, normalize_array, stringTokens_sorted,
      customPredicates_sorted.
  - split; [reflexivity|]. split; [reflexivity|].
    split; [intros rule c0 c1; apply applyRule_items|].
    intros c E fromStrings fromCustoms.
    unfold compileField in E. rewrite N in E. cbn [fst snd] in E.
    pose proof (build_stack _ _ _ _ E) as St.
    destruct (build_chain _ _ _ _ E) as [P _].
    split; [exact St|].
    intros b afterStrings afterCustoms. unfold run.
    rewrite P, St, runItems_app. reflexivity.
Qed.

(** C10 — [in:v1,v2,...] compiles to a trim transform followed by the
    membership check; on a string that equals an allowed literal once
    trimmed, the check passes and the record holds the trimmed
    string. *)
Theorem in_rule_trims_stored_value {RT : JsRuntime} {LIB : Library}
  (field params : string) (allRules : list string) (c : chain)
  (o : optionality) (st : state) (s : string) :
  let values := map Js.trim (Js.split "," params) in
  let added :=
    [ Sanitize Trim;
      Validate (Custom (InValues values)) false
        (Some (field ++ " must be one of: " ++ Js.join ", " values)) ] in
  let alone := {| path := field; stack := added; skips := Mandatory |} in
  halted st = false ->
  get field (body st) = VStr s ->
  In (Js.trim s) values ->
  applyRule field allRules (AChain c) ("in:" ++ params)
  = Ok (AChain {| path := path c; stack := stack c ++ added;
                  skips := skips c |})
  /\ runItems field o added st
     = {| body := set field (VStr (Js.trim s)) (body st);
          errors := errors st;
          halted := false |}
  /\ compileField field (SpecArray [RuleString ("in:" ++ params)])
     = Ok (AChain alone)
  /\ run alone (body st) = (set field (VStr (Js.trim s)) (body st), []).
Proof.
  intros values added alone H G I.
  assert (A : forall rules c0,
             applyRule field rules (AChain c0) ("in:" ++ params)
             = Ok (AChain {| path := path c0; stack := stack c0 ++ added;
                             skips := skips c0 |})).
  { intros rules c0. change ("in:" ++ params) with ("in" ++ ":" ++ params).
    rewrite (applyRule_param field "in") by reflexivity.
    unfold applyParamRule; simpl. unfold custom.
    rewrite withMessage_validation. unfold addItem, trim, addItem; simpl.
    now rewrite <- app_assoc. }
  assert (R : forall o0 st0,
             halted st0 = false ->
             get field (body st0) = VStr s ->
             runItems field o0 added st0
             = {| body := set field (VStr (Js.trim s)) (body st0);
                  errors := errors st0;
                  halted := false |}).
  { intros o0 st0 H0 G0. unfold added, runItems. cbn [fold_left].
    unfold runItem at 2. rewrite H0, G0. cbn [orb body errors].
    replace (skipped o0 (VStr s)) with false by now destruct o0.
    cbn [runSanitizer stringify stringifyShallow StringOf store].
    unfold runItem. cbn [halted body errors orb].
    rewrite get_set_same.
    replace (skipped o0 (VStr (Js.trim s))) with false by now destruct o0.
    unfold failures. cbn [onValue runClosure StringOf].
    rewrite trim_fixed. apply includes_In in I. rewrite I.
    cbn [map]. now rewrite app_nil_r. }
  split; [apply A|]. split; [now apply R|]. split.
  - unfold compileField, build. cbn [normalize fold_left fst snd app forEach].
    rewrite A. reflexivity.
  - unfold run, alone. cbn [path stack skips].
    rewrite R; [reflexivity | reflexivity | exact G].
Qed.

(** ** The sanitizer *)

(** The fuel of the matcher is enough: more of it changes nothing. *)
Section FuelFacts.

Import Regex.

Lemma starLoop_ext (m : matcher) (k1 k2 : cont) (fuel pos : nat)
  (s : string) :
  sound m -> (forall p t, k1 p t = k2 p t) ->
  starLoop m k1 fuel pos s = starLoop m k2 fuel pos s.
Proof.
  intros [E _] K. revert pos s.
  induction fuel as [|fuel IH]; intros pos s; cbn [starLoop]; [apply K|].
  rewrite (E pos s _ (fun pos' s' =>
                        if (String.length s' <? String.length s)%nat
                        then starLoop m k2 fuel pos' s' else None)).
  - now rewrite K.
  - intros p t. now rewrite IH.
Qed.

Lemma starLoop_none (m : matcher) (fuel pos : nat) (s : string) :
  sound m -> starLoop m (fun _ _ => None) fuel pos s = None.
Proof.
  intros [E N]. revert pos s.
  induction fuel as [|fuel IH]; intros pos s; cbn [starLoop]; [reflexivity|].
  rewrite (E pos s _ (fun _ _ => None)).
  - now rewrite N.
  - intros p t. rewrite IH. now destruct (_ <? _)%nat.
Qed.

Lemma exec_sound (r : re) : sound (exec r).
Proof.
  induction r as [| p | r1 [E1 N1] r2 [E2 N2] | r1 [E1 N1] r2 [E2 N2]
                 | r1 IH | ]; split; cbn [exec].
  - intros pos s k1 k2 K. apply K.
  - reflexivity.
  - intros pos s k1 k2 K. destruct s as [|a s]; [reflexivity|].
    destruct (p a); [apply K | reflexivity].
  - intros pos s. destruct s as [|a s]; [reflexivity|].
    now destruct (p a).
  - intros pos s k1 k2 K. apply E1. intros p t. now apply E2.
  - intros pos s. rewrite (E1 pos s _ (fun _ _ => None)); [apply N1|].
    intros p t. apply N2.
  - intros pos s k1 k2 K.
    now rewrite (E1 pos s k1 k2 K), (E2 pos s k1 k2 K).
  - intros pos s. now rewrite N1, N2.
  - intros pos s k1 k2 K. now apply starLoop_ext.
  - intros pos s. now apply starLoop_none.
  - intros pos s k1 k2 K. destruct (pos =? 0)%nat; [apply K | reflexivity].
  - intros pos s. now destruct (pos =? 0)%nat.
Qed.

Lemma starLoop_fuel (m : matcher) (k : cont) (fuel fuel' pos : nat)
  (s : string) :
  sound m ->
  String.length s <= fuel -> String.length s <= fuel' ->
  starLoop m k fuel pos s = starLoop m k fuel' pos s.
Proof.
  intros [E N].
  assert (Z : forall fuel pos s,
             String.length s = 0 -> starLoop m k fuel pos s = k pos s).
  { intros [|f] p t L; cbn [starLoop]; [reflexivity|].
    rewrite (E p t _ (fun _ _ => None)); [now rewrite N|].
    intros p' t'. rewrite L. now destruct (_ <? 0)%nat eqn:X. }
  revert fuel' pos s. induction fuel as [|fuel IH]; intros fuel' pos s L L'.
  - rewrite !Z by lia. reflexivity.
  - destruct fuel' as [|fuel']; [rewrite !Z by lia; reflexivity|].
    cbn [starLoop].
    rewrite (E pos s _ (fun pos' s' =>
                          if (String.length s' <? String.length s)%nat
                          then starLoop m k fuel' pos' s' else None));
      [reflexivity|].
    intros p t. destruct (String.length t <? String.length s)%nat eqn:X;
      [|reflexivity].
    apply Nat.ltb_lt in X. apply IH; lia.
Qed.

Lemma scan_fuel (r : re) (fuel fuel' pos : nat) (s : string) :
  String.length s < fuel -> String.length s < fuel' ->
  scan r fuel pos s = scan r fuel' pos s.
Proof.
  revert fuel' pos s. induction fuel as [|fuel IH]; intros fuel' pos s L L';
    [lia|].
  destruct fuel' as [|fuel']; [lia|]. cbn [scan].
  assert (K : match s with
              | String a s' => String a (scan r fuel (S pos) s')
              | EmptyString => EmptyString
              end
              = match s with
                | String a s' => String a (scan r fuel' (S pos) s')
                | EmptyString => EmptyString
                end).
  { destruct s as [|a s]; [reflexivity|]. simpl in L, L'.
    f_equal. apply IH; lia. }
  rewrite K. destruct (matchAt r pos s) as [rest|]; [|reflexivity].
  destruct (String.length rest <? String.length s)%nat eqn:X; [|reflexivity].
  apply Nat.ltb_lt in X. apply IH; lia.
Qed.

(** [remove] and the star of [exec] do not depend on their fuel. *)
Lemma remove_fuel (r : re) (extra : nat) (s : string) :
  remove r s = scan r (S (String.length s) + extra) 0 s.
Proof. unfold remove. apply scan_fuel; lia. Qed.

Lemma star_fuel (r : re) (extra pos : nat) (s : string) (k : cont) :
  exec (Star r) pos s k
  = starLoop (exec r) k (String.length s + extra) pos s.
Proof. cbn [exec]. apply starLoop_fuel; [apply exec_sound | lia | lia]. Qed.

End FuelFacts.

Section TagFacts.

Import Regex.

Lemma closing_total (pos : nat) (s : string) :
  exists rest,
    closing pos s = Some rest /\ String.length rest <= String.length s.
Proof.
  unfold closing, Opt, Chr. cbn [exec]. destruct s as [|a s].
  - exists EmptyString. split; [reflexivity | lia].
  - destruct (Ascii.eqb ">" a).
    + exists s. split; [reflexivity | simpl; lia].
    + exists (String a s). split; [reflexivity | lia].
Qed.

Lemma exec_class_nil (p : ascii -> bool) (pos : nat) (k : cont) :
  exec (Class p) pos EmptyString k = None.
Proof. reflexivity. Qed.

Lemma exec_class_cons (p : ascii -> bool) (pos : nat) (a : ascii)
  (s : string) (k : cont) :
  exec (Class p) pos (String a s) k = if p a then k (S pos) s else None.
Proof. reflexivity. Qed.

Lemma star_total (fuel pos : nat) (s : string) :
  exists rest,
    starLoop (exec (Not ">")) closing fuel pos s = Some rest
    /\ String.length rest <= String.length s.
Proof.
  revert pos s. induction fuel as [|fuel IH]; intros pos s.
  - apply closing_total.
  - cbn [starLoop]. unfold Not. destruct s as [|a s].
    + rewrite exec_class_nil. apply closing_total.
    + rewrite exec_class_cons.
      destruct (negb (Ascii.eqb ">" a)); [|apply closing_total].
      destruct (String.length s <? String.length (String a s))%nat;
        [|apply closing_total].
      destruct (IH (S pos) s) as (rest & E & L). fold (Not ">").
      rewrite E. exists rest. split; [reflexivity | simpl; lia].
Qed.

(** A tag matches wherever a [<] stands. *)
Lemma tag_at_lt (pos : nat) (s : string) :
  exists rest,
    matchAt htmlTag pos (String "<" s) = Some rest
    /\ String.length rest <= String.length s.
Proof.
  unfold matchAt, htmlTag, Chr. cbn [exec]. rewrite Ascii.eqb_refl.
  apply star_total.
Qed.

Lemma tag_needs_lt (pos : nat) (a : ascii) (s : string) :
  Ascii.eqb a "<" = false -> matchAt htmlTag pos (String a s) = None.
Proof.
  intros N. unfold matchAt, htmlTag, Chr. cbn [exec].
  rewrite Ascii.eqb_sym, N. reflexivity.
Qed.

Lemma contains_cons (c a : ascii) (s : string) :
  Js.contains c (String a s) = Ascii.eqb a c || Js.contains c s.
Proof.
  unfold Js.contains. simpl. destruct (Ascii.eqb a c); [reflexivity|].
  now destruct (Js.indexOf c s).
Qed.

Lemma scan_strips (fuel pos : nat) (s : string) :
  String.length s < fuel ->
  Js.contains "<" (scan htmlTag fuel pos s) = false.
Proof.
  revert pos s. induction fuel as [|fuel IH]; intros pos s L; [lia|].
  cbn [scan]. destruct s as [|a s]; [reflexivity|].
  simpl in L. destruct (Ascii.eqb a "<") eqn:E.
  - apply Ascii.eqb_eq in E. subst a.
    destruct (tag_at_lt pos s) as (rest & -> & R).
    replace (String.length rest <? String.length (String "<" s))%nat
      with true by (symmetry; apply Nat.ltb_lt; simpl; lia).
    apply IH. lia.
  - rewrite (tag_needs_lt pos a s E), contains_cons, E. simpl.
    apply IH. lia.
Qed.

(** No [<] is left by the tag pass, hence by [clean]. *)
Lemma clean_strips (value : string) :
  Js.contains "<" (clean value) = false.
Proof. unfold clean, remove. apply scan_strips. lia. Qed.

End TagFacts.

Section ShapeFacts.

Context {RT : JsRuntime}.

Lemma assign_all (props acc : record) :
  ~ In "__proto__" (map fst props) ->
  NoDup (map fst acc ++ map fst props) ->
  fold_left
    (fun cleanedObj entry =>
       assign (fst entry) (deepClean (snd entry)) cleanedObj)
    props acc
  = (acc ++ map (fun entry => (fst entry, deepClean (snd entry))) props)%list.
Proof.
  revert acc. induction props as [|[k v] props IH]; intros acc P D; simpl.
  - now rewrite app_nil_r.
  - simpl in P, D.
    assert (A : assign k (deepClean v) acc = (acc ++ [(k, deepClean v)])%list).
    { unfold assign. destruct (String.eqb_spec k "__proto__") as [->|_];
        [exfalso; apply P; now left|].
      apply NoDup_remove_2 in D.
      assert (N : ~ In k (map fst acc))
        by (intros X; apply D, in_or_app; now left).
      clear - N. induction acc as [|[k' w] acc IH]; simpl; [reflexivity|].
      destruct (String.eqb_spec k' k) as [->|_];
        [exfalso; apply N; now left|].
      rewrite IH; [reflexivity | intros X; apply N; now right]. }
    rewrite A, IH.
    + now rewrite <- app_assoc.
    + intros X. apply P. now right.
    + rewrite map_app, <- app_assoc. exact D.
Qed.

(** An object is rebuilt key by key, in order, unless a key is
    [__proto__]. *)
Lemma deepClean_object (props : record) :
  ~ In "__proto__" (map fst props) ->
  NoDup (map fst props) ->
  deepClean (VObj props)
  = VObj (map (fun entry => (fst entry, deepClean (snd entry))) props).
Proof.
  intros P D. cbn [deepClean]. f_equal.
  now rewrite (assign_all props [] P D).
Qed.

Lemma deepClean_proto (v : value) :
  deepClean (VObj [("__proto__", v)]) = VObj [].
Proof. reflexivity. Qed.

(** Induction on values, through arrays and objects. *)
Section ValueInduction.

Variable P : value -> Prop.
Hypothesis P_undefined : P VUndefined.
Hypothesis P_null : P VNull.
Hypothesis P_bool : forall b, P (VBool b).
Hypothesis P_num : forall n, P (VNum n).
Hypothesis P_str : forall s, P (VStr s).
Hypothesis P_arr : forall items, Forall P items -> P (VArr items).
Hypothesis P_obj :
  forall props, Forall (fun entry => P (snd entry)) props -> P (VObj props).

Fixpoint value_induction (v : value) : P v :=
  match v with
  | VUndefined => P_undefined
  | VNull => P_null
  | VBool b => P_bool b
  | VNum n => P_num n
  | VStr s => P_str s
  | VArr items =>
      P_arr items
        ((fix all (l : list value) : Forall P l :=
            match l with
            | [] => Forall_nil P
            | x :: l' => Forall_cons x (value_induction x) (all l')
            end) items)
  | VObj props =>
      P_obj props
        ((fix all (l : record) : Forall (fun entry => P (snd entry)) l :=
            match l with
            | [] => Forall_nil _
            | entry :: l' =>
                Forall_cons entry (value_induction (snd entry)) (all l')
            end) props)
  end.

End ValueInduction.

(** On plain data [deepClean] rebuilds every container with the same
    length, the same keys in the same order, and a string wherever a
    string stood. *)
Lemma deepClean_keeps_shape (v : value) :
  plain v -> shape (deepClean v) = shape v.
Proof.
  induction v as [| | b | n | s | items IH | props IH]
    using value_induction; intros Hp; try reflexivity.
  - cbn [deepClean shape]. f_equal. rewrite map_map.
    induction IH as [|x items Hx _ IHitems]; [reflexivity|].
    destruct Hp as [Px Pitems]. cbn [map]. f_equal; auto.
  - destruct Hp as (D & N & Hp).
    rewrite (deepClean_object props N D). cbn [shape]. f_equal.
    rewrite map_map. cbn [fst snd]. clear D N.
    induction IH as [|entry props Hx _ IHprops]; [reflexivity|].
    destruct Hp as [Px Pprops]. cbn [map]. f_equal; [|auto].
    f_equal. auto.
Qed.

End ShapeFacts.

(** C7 — the four input/output equations of the sanitizer; the nested
    object comes back with the same keys at both levels, an array comes
    back as the array of its cleaned elements, a string as its cleaned
    string. *)
Theorem sanitizer_examples {RT : JsRuntime} :
  clean "javascript:alert(1)" = ""
  /\ clean (" onclick=" ++ String dquote "alert(1)" ++ String dquote " ") = ""
  /\ clean "<b>John</b>" = "John"
  /\ deepClean (VObj [("a", VObj [("b", VStr "<i>x</i>")])])
     = VObj [("a", VObj [("b", VStr "x")])]
  /\ (forall items, deepClean (VArr items) = VArr (map deepClean items))
  /\ (forall s, deepClean (VStr s) = VStr (clean s)).
Proof. repeat split. Qed.

(** C8 (as amended) — one pass of [clean] over "<<script>script>"
    leaves "script>", on which a second pass changes nothing; no [<]
    is left by any pass; [clean] is still not idempotent, since a tag
    can hide a link from the pass that runs before the tag pass. *)
Theorem single_pass_residue :
  clean "<<script>script>" = "script>"
  /\ clean (clean "<<script>script>") = clean "<<script>script>"
  /\ (forall value, Js.contains "<" (clean value) = false)
  /\ clean "java<b>script:alert(1)" = "javascript:alert(1)"
  /\ clean (clean "java<b>script:alert(1)") = "".
Proof.
  split; [reflexivity|]. split; [reflexivity|].
  split; [exact clean_strips|]. split; reflexivity.
Qed.

(** C8, as stated, fails: the residue is not "<script>". *)
Lemma single_pass_residue_is_not_a_tag :
  clean "<<script>script>" <> "<script>".
Proof. discriminate. Qed.

(* ================================================================== *)
(** * The theorems at concrete inputs *)

Section Examples.

Import IntegerHost.

Lemma testRules_distinct : NoDup (map fst testRules).
Proof.
  repeat constructor; simpl; intuition discriminate.
Defined.

(** [integer|min:18] and [min:18|integer] both compare the value. *)
Lemma bounds_follow_numeric_tag_witness :
  Permutation ["integer"; "min:18"] ["min:18"; "integer"]
  /\ applyRule "age" ["integer"; "min:18"] (AChain (check "age")) "min:18"
     = Ok (AChain {| path := "age";
                     stack := [Validate
                                 (IsFloat {| min := Some (Some 18%Z);
                                             max := None |})
                                 false (Some "age must be at least 18")];
                     skips := Mandatory |})
  /\ applyRule "age" ["min:18"; "integer"] (AChain (check "age")) "min:18"
     = applyRule "age" ["integer"; "min:18"] (AChain (check "age")) "min:18".
Proof.
  pose proof (bounds_follow_numeric_tag (check "age") "age" "18"
                ["integer"; "min:18"] ["min:18"; "integer"]
                (perm_swap _ _ _)) as (_ & A & _ & _ & B).
  split; [apply perm_swap|]. split; [exact A | apply B].
Defined.

(** Test 2 of the repository: [name] is missing. *)
Lemma required_first_reports_once_witness :
  makeValidators testRules = Ok testValidators
  /\ chains testValidators = Some testChains
  /\ NoDup (map fst testRules)
  /\ In ("name", SpecString "required|string") testRules
  /\ fst (normalize (SpecString "required|string")) = ["required"; "string"]
  /\ unfilled "name" ["string"]
       [("email", VStr "john@example.com"); ("age", VNum (Some 20%Z))]
  /\ snd (handle testChains
            [("email", VStr "john@example.com"); ("age", VNum (Some 20%Z))])
     = Status422 ["name is required"].
Proof.
  assert (U : unfilled "name" ["string"]
                [("email", VStr "john@example.com");
                 ("age", VNum (Some 20%Z))]).
  { right. split; [reflexivity|]. simpl. intuition discriminate. }
  repeat (split; [first [reflexivity | exact U | exact testRules_distinct
                        | simpl; tauto]|]).
  exact (proj1 (proj2
           (required_first_reports_once testRules testValidators testChains
              "name" (SpecString "required|string") ["string"]
              [("email", VStr "john@example.com"); ("age", VNum (Some 20%Z))]
              eq_refl eq_refl testRules_distinct
              (or_introl eq_refl) eq_refl U))).
Defined.

(** C2, as stated, fails: a field tagged [required] after [default:v]
    is accepted when missing, the default being filled in first. *)
Lemma required_is_not_always_reported :
  Js.includes "required" (Js.split "|" "default:Guest|required") = true
  /\ get "nickname" [] = VUndefined
  /\ (exists c,
         makeValidators [("nickname", SpecString "default:Guest|required")]
         = Ok [AChain c]
         /\ snd (runAll [c] []) = []
         /\ handle [c] [] = ([("nickname", VStr "Guest")], Next)).
Proof.
  split; [reflexivity|]. split; [reflexivity|].
  eexists; split; [reflexivity | split; reflexivity].
Qed.

(** A field tagged [optional] as well is skipped as a whole when it is
    missing, [required] included. *)
Lemma required_with_optional_is_skipped :
  exists c,
    makeValidators [("nickname", SpecString "required|optional")]
    = Ok [AChain c]
    /\ snd (runAll [c] []) = []
    /\ handle [c] [] = ([], Next).
Proof. eexists; split; [reflexivity | split; reflexivity]. Qed.

(** [required_if:role] has no comma. *)
Lemma malformed_conditional_is_noop_witness :
  In "required_if" ["required_if"; "required_unless"; "prohibited_if"]
  /\ Js.indexOf "," "role" = None
  /\ compileField "taxId" (SpecString "required|required_if:role")
     = compileField "taxId" (SpecString "required").
Proof.
  split; [simpl; tauto|]. split; [reflexivity|].
  exact (proj2 (proj2 (proj2 (proj2
           (malformed_conditional_is_noop "taxId" "required_if" "role"
              (or_introl eq_refl) eq_refl))))
           "required|required_if:role" "required" ["required"] []
           eq_refl eq_refl).
Defined.

(** [size:3] is no case of the [switch]. *)
Lemma unknown_parameterized_rule_ignored_witness :
  Js.indexOf ":" "size" = None
  /\ ~ In "size" parameterizedRules
  /\ compileField "tags" (SpecString "array|size:3")
     = compileField "tags" (SpecString "array").
Proof.
  assert (N : ~ In "size" parameterizedRules)
    by (simpl; intuition discriminate).
  split; [reflexivity|]. split; [exact N|].
  exact (proj2 (proj2 (proj2 (proj2
           (unknown_parameterized_rule_ignored "tags" "size" "3" eq_refl N))))
           "array|size:3" "array" ["array"] [] eq_refl eq_refl).
Defined.

(** Test 4 of the repository: [nickname] is omitted.  The same with
    [string] before and [min:3] after the default. *)
Lemma default_fills_blank_values_witness :
  makeValidators testRules = Ok testValidators
  /\ chains testValidators = Some testChains
  /\ NoDup (map fst testRules)
  /\ In ("nickname", SpecString "default:Guest") testRules
  /\ get "nickname"
       [("name", VStr "Jane"); ("email", VStr "jane@example.com");
        ("age", VNum (Some 25%Z))] = VUndefined
  /\ get "nickname"
       (fst (handle testChains
               [("name", VStr "Jane"); ("email", VStr "jane@example.com");
                ("age", VNum (Some 25%Z))]))
     = VStr "Guest"
  /\ build "nickname" ["string"; "default:Guest"; "min:3"] []
     = Ok (AChain
             {| path := "nickname";
                stack :=
                  [ Validate IsString false
                      (Some "nickname must be a string");
                    Sanitize (DefaultTo "Guest");
                    Validate (IsLength {| min := Some (Some 3%Z);
                                          max := None |})
                      false
                      (Some "nickname must be at least 3 characters") ];
                skips := Mandatory |})
  /\ ~ In "required" ["string"]
  /\ ~ In "optional" ["string"; "default:Guest"; "min:3"]
  /\ ~ In "nullable" ["string"; "default:Guest"; "min:3"]
  /\ get "nickname"
       (body
          (runItems "nickname" Mandatory
             [ Validate IsString false (Some "nickname must be a string");
               Sanitize (DefaultTo "Guest") ]
             {| body := []; errors := []; halted := false |}))
     = VStr "Guest".
Proof.
  assert (Nr : ~ In "required" ["string"]) by (simpl; intuition discriminate).
  assert (No : ~ In "optional" ["string"; "default:Guest"; "min:3"])
    by (simpl; intuition discriminate).
  assert (Nn : ~ In "nullable" ["string"; "default:Guest"; "min:3"])
    by (simpl; intuition discriminate).
  pose proof
    (default_fills_blank_values "nickname" "Guest" []
       (check "nickname") testRules testValidators testChains
       [("name", VStr "Jane"); ("email", VStr "jane@example.com");
        ("age", VNum (Some 25%Z))]
       eq_refl eq_refl testRules_distinct
       (or_intror (or_intror (or_intror (or_intror
          (or_introl eq_refl)))))
       eq_refl) as (_ & _ & _ & G & _ & _ & R).
  split; [reflexivity|]. split; [reflexivity|].
  split; [exact testRules_distinct|]. split; [simpl; tauto|].
  split; [reflexivity|]. split; [exact G|]. split; [reflexivity|].
  split; [exact Nr|]. split; [exact No|]. split; [exact Nn|].
  exact (proj1 (proj2 (proj2
           (R ["string"] ["min:3"] [] _ [] eq_refl Nr No Nn)))).
Defined.

(** C5, as stated, fails: a field tagged [optional] is skipped as a
    whole while it is missing, and one tagged [nullable] while it is
    [null], the default included; and after a failed [required] the
    chain has stopped before the default. *)
Lemma default_is_not_always_filled :
  Js.includes "default:Guest" (Js.split "|" "optional|default:Guest") = true
  /\ get "nickname" [] = VUndefined
  /\ (exists c,
         makeValidators [("nickname", SpecString "optional|default:Guest")]
         = Ok [AChain c]
         /\ handle [c] [] = ([], Next)
         /\ get "nickname" (fst (handle [c] [])) = VUndefined)
  /\ (exists c,
         makeValidators [("nickname", SpecString "nullable|default:Guest")]
         = Ok [AChain c]
         /\ handle [c] [("nickname", VNull)] = ([("nickname", VNull)], Next))
  /\ (exists c,
         makeValidators [("nickname", SpecString "required|default:Guest")]
         = Ok [AChain c]
         /\ handle [c] [] = ([], Status422 ["nickname is required"])).
Proof.
  split; [reflexivity|]. split; [reflexivity|].
  split; [|split]; eexists; repeat split.
Qed.

(** Two predicates around [required], before [email]. *)
Lemma customs_run_after_strings_witness :
  compileField "name"
    (SpecArray [ RuleObject {| rule_custom := fun _ _ => Accept |};
                 RuleString "required";
                 RuleObject {| rule_custom := fun _ _ => Reject |};
                 RuleString "email" ])
  = Ok (AChain
          {| path := "name";
             stack :=
               [ Validate IsEmpty true (Some "name is required");
                 Bail;
                 Validate IsEmail false (Some "name must be a valid email");
                 Validate (Custom (UserRule (fun _ _ => Accept))) false None;
                 Validate (Custom (UserRule (fun _ _ => Reject))) false None ];
             skips := Mandatory |})
  /\ tokenItems "name" ["required"; "email"] "required"
     = [Validate IsEmpty true (Some "name is required"); Bail]
  /\ tokenItems "name" ["required"; "email"] "email"
     = [Validate IsEmail false (Some "name must be a valid email")]
  /\ stack
       {| path := "name";
          stack :=
            [ Validate IsEmpty true (Some "name is required");
              Bail;
              Validate IsEmail false (Some "name must be a valid email");
              Validate (Custom (UserRule (fun _ _ => Accept))) false None;
              Validate (Custom (UserRule (fun _ _ => Reject))) false None ];
          skips := Mandatory |}
     = (flat_map (tokenItems "name" ["required"; "email"])
          ["required"; "email"]
        ++ map customItem
             [ {| rule_custom := fun _ _ => Accept |};
               {| rule_custom := fun _ _ => Reject |} ])%list.
Proof.
  split; [reflexivity|]. split; [reflexivity|]. split; [reflexivity|].
  exact (proj1
           (proj2 (proj2 (proj2 (proj2 (proj2 (proj2 (proj2 (proj2
              (customs_run_after_strings "name"
                 [ RuleObject {| rule_custom := fun _ _ => Accept |};
                   RuleString "required";
                   RuleObject {| rule_custom := fun _ _ => Reject |};
                   RuleString "email" ]))))))))
              _ eq_refl)).
Defined.

(** [role] arrives with blanks around an allowed value. *)
Lemma in_rule_trims_stored_value_witness :
  get "role" [("role", VStr " admin ")] = VStr " admin "
  /\ In (Js.trim " admin ") (map Js.trim (Js.split "," "admin, user"))
  /\ runItems "role" SkipUndefined
       [ Sanitize Trim;
         Validate (Custom (InValues ["admin"; "user"])) false
           (Some "role must be one of: admin, user") ]
       {| body := [("role", VStr " admin ")]; errors := [];
          halted := false |}
     = {| body := [("role", VStr "admin")]; errors := [];
          halted := false |}.
Proof.
  assert (I : In (Js.trim " admin ")
                (map Js.trim (Js.split "," "admin, user")))
    by (simpl; tauto).
  split; [reflexivity|]. split; [exact I|].
  exact (proj1 (proj2
           (in_rule_trims_stored_value "role" "admin, user" []
              (check "role") SkipUndefined
              {| body := [("role", VStr " admin ")]; errors := [];
                 halted := false |}
              " admin " eq_refl eq_refl I))).
Defined.

End Examples.

(* ================================================================== *)
(** * Further properties of index.ts *)

Section ConfigFacts.

Context {RT : JsRuntime}.

Lemma forEach_entries_back (rules : RuleConfig) (acc added : list slot) :
  Forall2 (fun entry v => compileField (fst entry) (snd entry) = Ok v)
    rules added ->
  forEach
    (fun validators entry =>
       chain <- compileField (fst entry) (snd entry) ;;
       Ok (validators ++ [chain])%list)
    rules acc = Ok (acc ++ added)%list.
Proof.
  intros F. revert acc. induction F as [|e v rules vs E _ IH]; intros acc.
  - simpl. now rewrite app_nil_r.
  - cbn [forEach]. rewrite E. cbn [bind]. rewrite IH.
    now rewrite <- app_assoc.
Qed.

Lemma makeValidators_each (rules : RuleConfig) (validators : list slot) :
  makeValidators rules = Ok validators
  <-> Forall2 (fun entry v => compileField (fst entry) (snd entry) = Ok v)
        rules validators.
Proof.
  split.
  - intros M. apply forEach_entries in M. now destruct M as (added & -> & F).
  - intros F. unfold makeValidators.
    now rewrite (forEach_entries_back rules [] validators F).
Qed.

(** A member of [Object.prototype] is written without a colon and is
    no own key of [basicValidators]. *)
Lemma inherited_names (rule : string) (member : inherited) :
  assoc rule Object_prototype = Some member ->
  Js.contains ":" rule = false /\ assoc rule basicValidators = None.
Proof.
  unfold Object_prototype. cbn [assoc].
  repeat match goal with
         | |- context [if String.eqb ?k rule then _ else _] =>
             destruct (String.eqb_spec k rule) as [<-|_]
         end.
  all: intros E; try discriminate E; split; reflexivity.
Qed.

Lemma own_succeeds (rule : string) (fn : slot -> string -> result slot)
  (c : chain) (field : string) :
  assoc rule basicValidators = Some fn ->
  exists c', fn (AChain c) field = Ok (AChain c').
Proof.
  unfold basicValidators. cbn [assoc].
  repeat match goal with
         | |- context [if String.eqb ?k rule then _ else _] =>
             destruct (String.eqb_spec k rule) as [<-|_]
         end.
  all: intros E; try discriminate E; injection E as <-.
  all: cbn [call]; eauto.
Qed.

Lemma applyParamRule_succeeds (c : chain) (field ruleName params : string)
  (allRules : list string) :
  (ruleName = "regex" -> RegExp_ok (patternOf params) = true) ->
  exists c',
    applyParamRule (AChain c) field ruleName params allRules
    = Ok (AChain c').
Proof.
  intros R. unfold applyParamRule. fold (patternOf params).
  repeat match goal with
         | |- context [if String.eqb ruleName ?k then _ else _] =>
             destruct (String.eqb_spec ruleName k) as [E|_]
         end.
  all: try (rewrite (R E)).
  all: repeat match goal with
         | |- context [if ?b then _ else _] => destruct b
         | |- context [match Js.indexOf ?a ?b with _ => _ end] =>
             destruct (Js.indexOf a b)
         end.
  all: cbn [call]; eauto.
Qed.

Lemma applyRule_succeeds (c : chain) (field rule : string)
  (allRules : list string) :
  assoc rule Object_prototype = None ->
  (forall i, Js.indexOf ":" rule = Some i -> Js.take i rule = "regex" ->
             RegExp_ok (patternOf (Js.drop (i + 1) rule)) = true) ->
  exists c', applyRule field allRules (AChain c) rule = Ok (AChain c').
Proof.
  intros O R. unfold applyRule, lookup.
  destruct (Js.contains ":" rule).
  - destruct (Js.indexOf ":" rule) as [i|]; [|eauto].
    apply applyParamRule_succeeds. intros E. now apply R.
  - destruct (assoc rule basicValidators) as [fn|] eqn:B.
    + now apply (own_succeeds rule).
    + rewrite O. eauto.
Qed.

Lemma rules_succeed (field : string) (allRules rules : list string)
  (c : chain) :
  (forall rule, In rule rules -> assoc rule Object_prototype = None) ->
  (forall rule i, In rule rules ->
                  Js.indexOf ":" rule = Some i -> Js.take i rule = "regex" ->
                  RegExp_ok (patternOf (Js.drop (i + 1) rule)) = true) ->
  exists c',
    forEach (applyRule field allRules) rules (AChain c) = Ok (AChain c').
Proof.
  revert c. induction rules as [|rule rules IH]; intros c O R; [simpl; eauto|].
  destruct (applyRule_succeeds c field rule allRules) as [c1 E].
  - apply O. now left.
  - intros i. apply R. now left.
  - cbn [forEach]. rewrite E. cbn [bind]. apply IH.
    + intros r Hr. apply O. now right.
    + intros r i Hr. apply R. now right.
Qed.

End ConfigFacts.

(** X1 — [makeValidators] returns one validator per field of the
    configuration, in the order of the fields, and each one checks the
    field it was declared for. *)
Theorem one_validator_per_field {RT : JsRuntime} (rules : RuleConfig)
  (validators : list slot) (cs : list chain) :
  makeValidators rules = Ok validators ->
  chains validators = Some cs ->
  List.length validators = List.length rules
  /\ map path cs = map fst rules.
Proof.
  intros M C. split.
  - apply makeValidators_each in M. symmetry. exact (Forall2_length M).
  - apply compiled_paths. now apply (makeValidators_compiled _ validators).
Qed.

(** X2 — [makeValidators] is all or nothing: it returns a list exactly
    when every field compiles, and the list is then what each field
    compiles to, in order; when the rules of one field throw, the whole
    call throws, with the error of the first such field, and no
    validator is returned for the other fields either. *)
Theorem makeValidators_all_or_nothing {RT : JsRuntime} (rules : RuleConfig) :
  (forall validators,
      makeValidators rules = Ok validators
      <-> Forall2
            (fun entry v => compileField (fst entry) (snd entry) = Ok v)
            rules validators)
  /\ (forall entry e,
         In entry rules ->
         compileField (fst entry) (snd entry) = Throw e ->
         exists e', makeValidators rules = Throw e')
  /\ (forall pre entry post e,
         rules = (pre ++ entry :: post)%list ->
         Forall (fun earlier =>
                   exists v, compileField (fst earlier) (snd earlier) = Ok v)
           pre ->
         compileField (fst entry) (snd entry) = Throw e ->
         makeValidators rules = Throw e).
Proof.
  split; [intros; apply makeValidators_each|]. split.
  - intros entry e I T.
    destruct (makeValidators rules) as [vs|e'] eqn:M; [|eauto].
    exfalso. apply makeValidators_each in M.
    induction M as [|x v rules vs E _ IH]; [destruct I|].
    destruct I as [->|I]; [congruence | now apply IH].
  - intros pre entry post e -> F T. unfold makeValidators.
    enough (G : forall acc,
               forEach
                 (fun validators entry =>
                    chain <- compileField (fst entry) (snd entry) ;;
                    Ok (validators ++ [chain])%list)
                 (pre ++ entry :: post)%list acc = Throw e)
      by apply G.
    induction F as [|earlier pre [v E] _ IH]; intros acc; cbn [app forEach].
    + now rewrite T.
    + rewrite E. cbn [bind]. apply IH.
Qed.

(** X3 — a field compiles to a chain whenever none of its tokens is
    the name of a member of [Object.prototype] and every pattern of a
    [regex:] token compiles: nothing else can make [makeValidators]
    throw. *)
Theorem build_succeeds {RT : JsRuntime} (field : string)
  (fieldRules : list string) (customRules : list CustomRule) :
  (forall rule, In rule fieldRules -> assoc rule Object_prototype = None) ->
  (forall rule i, In rule fieldRules ->
                  Js.indexOf ":" rule = Some i -> Js.take i rule = "regex" ->
                  RegExp_ok (patternOf (Js.drop (i + 1) rule)) = true) ->
  exists c,
    build field fieldRules customRules = Ok (AChain c) /\ path c = field.
Proof.
  intros O R. unfold build.
  destruct (rules_succeed field fieldRules fieldRules (check field) O R)
    as [c1 E].
  rewrite E. cbn [bind]. rewrite customs_append. eexists. split; [reflexivity|].
  cbn [path]. destruct (rules_grow _ _ _ _ _ E) as (c0 & Ec & [P _] & _).
  injection Ec as <-. exact P.
Qed.

(** X4 — a field with a token named after a member of
    [Object.prototype] other than [constructor] never compiles to a
    chain, wherever the token stands and whatever the other tokens
    are. *)
Theorem inherited_name_spoils_field {RT : JsRuntime} (field rule : string)
  (fieldRules : list string) (customRules : list CustomRule) (c : chain) :
  In rule fieldRules ->
  harmful rule ->
  build field fieldRules customRules <> Ok (AChain c).
Proof.
  intros I (member & A & N) B.
  destruct (inherited_names rule member A) as [Hc Hb].
  apply in_split in I. destruct I as (pre & post & ->).
  rewrite build_at in B.
  destruct (forEach _ pre _) as [before|]; cbn [bind] in B; [|discriminate].
  destruct (applyRule _ _ before rule) as [here|] eqn:E; cbn [bind] in B;
    [|discriminate].
  destruct (forEach _ post here) as [[c2|o]|] eqn:P; cbn [bind] in B;
    [| now apply customs_need_chain in B | discriminate].
  destruct (rules_grow _ _ _ _ _ P) as (c1 & -> & _).
  unfold applyRule, lookup in E. rewrite Hc, Hb, A in E.
  destruct member; simpl in E; try discriminate E; try congruence.
Qed.

Section ParameterFacts.

Context {RT : JsRuntime}.

Lemma split_whole (c : ascii) (s : string) :
  Js.indexOf c s = None -> Js.split c s = [s].
Proof.
  induction s as [|a s IH]; simpl; [reflexivity|].
  destruct (Ascii.eqb a c); [discriminate|].
  destruct (Js.indexOf c s); [discriminate|].
  intros _. now rewrite IH.
Qed.

Lemma endsWith_append (c : ascii) (s : string) :
  Js.endsWith c (s ++ String c EmptyString) = true.
Proof.
  induction s as [|a s IH]; simpl; [apply Ascii.eqb_refl|].
  destruct (s ++ String c EmptyString) eqn:E; [|exact IH].
  destruct s; discriminate E.
Qed.

Lemma length_append (s t : string) :
  String.length (s ++ t) = String.length s + String.length t.
Proof. induction s; simpl; [reflexivity | now f_equal]. Qed.

Lemma patternOf_delimited (p : string) : patternOf ("/" ++ p ++ "/") = p.
Proof.
  unfold patternOf. cbn [append Js.startsWith].
  change (String "/" (p ++ "/")) with (String "/" (p ++ String "/" "")).
  replace (Js.endsWith "/" (String "/" (p ++ String "/" ""))) with true.
  - rewrite Ascii.eqb_refl. cbn [andb]. unfold Js.slice_1_m1.
    cbn [Js.drop String.length]. rewrite length_append. cbn [String.length].
    replace (S (String.length p + 1) - 2) with (String.length p) by lia.
    apply take_append.
  - symmetry. apply (endsWith_append "/" (String "/" p)).
Qed.

End ParameterFacts.

(** X5 — [length:min,max] is a string-length check whatever the other
    tokens of the field are: unlike [between] it never turns into a
    comparison of values. *)
Theorem length_is_never_numeric {RT : JsRuntime} (c : chain)
  (field params : string) (allRules allRules' : list string) :
  let parts := map Number (Js.split "," params) in
  let lo := nth_error parts 0 in
  let hi := nth_error parts 1 in
  applyRule field allRules' (AChain c) ("length:" ++ params)
  = applyRule field allRules (AChain c) ("length:" ++ params)
  /\ applyRule field allRules (AChain c) ("length:" ++ params)
     = Ok (AChain
             (addItem
                (Validate (IsLength {| min := lo; max := hi |}) false
                   (Some (field ++ " must be between " ++ show lo ++ " and "
                                ++ show hi ++ " characters")))
                c)).
Proof.
  intros parts lo hi.
  change ("length:" ++ params) with ("length" ++ ":" ++ params).
  rewrite !(applyRule_param field "length") by reflexivity.
  unfold applyParamRule. cbn [String.eqb Ascii.eqb Bool.eqb call].
  unfold isLength. rewrite withMessage_validation. split; reflexivity.
Qed.

(** X6 — [between:N] and [length:N] written with a single number have
    no upper bound, and their message ends in "and undefined". *)
Theorem single_bound_has_no_maximum {RT : JsRuntime} (c : chain)
  (field params : string) (allRules : list string) :
  Js.indexOf "," params = None ->
  let N := Number params in
  applyRule field allRules (AChain c) ("length:" ++ params)
  = Ok (AChain
          (addItem
             (Validate (IsLength {| min := Some N; max := None |}) false
                (Some (field ++ " must be between " ++ numToString N
                             ++ " and undefined characters")))
             c))
  /\ applyRule field allRules (AChain c) ("between:" ++ params)
     = Ok (AChain
             (addItem
                (if numericTag allRules
                 then Validate (IsFloat {| min := Some N; max := None |}) false
                        (Some (field ++ " must be between " ++ numToString N
                                     ++ " and undefined"))
                 else Validate (IsLength {| min := Some N; max := None |}) false
                        (Some (field ++ " must be between " ++ numToString N
                                     ++ " and undefined characters")))
                c)).
Proof.
  intros E N. split.
  - change ("length:" ++ params) with ("length" ++ ":" ++ params).
    rewrite (applyRule_param field "length") by reflexivity.
    unfold applyParamRule. cbn [String.eqb Ascii.eqb Bool.eqb call].
    rewrite (split_whole _ _ E). unfold isLength.
    now rewrite withMessage_validation.
  - change ("between:" ++ params) with ("between" ++ ":" ++ params).
    rewrite (applyRule_param field "between") by reflexivity.
    unfold applyParamRule. cbn [String.eqb Ascii.eqb Bool.eqb].
    rewrite (split_whole _ _ E).
    destruct (numericTag allRules); cbn [call]; unfold isFloat, isLength;
      now rewrite withMessage_validation.
Qed.

(** X7 — a [regex:] rule hands [new RegExp] its parameter, without the
    two slashes when the parameter starts and ends with one; the rule
    throws a [SyntaxError] at compile time when the pattern does not
    compile, and otherwise adds one check with the message
    "<field> format is invalid". *)
Theorem regex_rule_compiles_its_pattern {RT : JsRuntime} (c : chain)
  (field params p : string) (allRules : list string) :
  patternOf ("/" ++ p ++ "/") = p
  /\ (Js.startsWith "/" params = false -> patternOf params = params)
  /\ (Js.endsWith "/" params = false -> patternOf params = params)
  /\ applyRule field allRules (AChain c) ("regex:" ++ params)
     = if RegExp_ok (patternOf params)
       then Ok (AChain
                  (addItem
                     (Validate (Matches (patternOf params)) false
                        (Some (field ++ " format is invalid")))
                     c))
       else Throw SyntaxError.
Proof.
  split; [apply patternOf_delimited|].
  split; [intros E; unfold patternOf; now rewrite E|].
  split; [intros E; unfold patternOf; rewrite E; now rewrite andb_false_r|].
  change ("regex:" ++ params) with ("regex" ++ ":" ++ params).
  rewrite (applyRule_param field "regex") by reflexivity.
  unfold applyParamRule. cbn [String.eqb Ascii.eqb Bool.eqb].
  fold (patternOf params).
  destruct (RegExp_ok (patternOf params)); [|reflexivity].
  cbn [call]. unfold matches. now rewrite withMessage_validation.
Qed.

(** X8 — a token is split at its first colon only: whatever follows,
    further colons included, is the parameter of the rule named
    before it. *)
Theorem only_the_first_colon_splits {RT : JsRuntime}
  (field ruleName params : string) (allRules : list string) (v : slot) :
  Js.indexOf ":" ruleName = None ->
  Js.indexOf ":" (ruleName ++ ":" ++ params)
  = Some (String.length ruleName)
  /\ applyRule field allRules v (ruleName ++ ":" ++ params)
     = applyParamRule v field ruleName params allRules.
Proof.
  intros N. split; [now apply indexOf_append | now apply applyRule_param].
Qed.

(** X9 — the parameter of [required_if], [required_unless] and
    [prohibited_if] is split at its first comma only: the other field
    is what stands before it and the value is all the rest, commas
    included.  Each rule adds one check without a message of its
    own. *)
Theorem conditional_rules_split_at_first_comma {RT : JsRuntime} (c : chain)
  (field otherField rawValue : string) (allRules : list string) :
  Js.indexOf "," otherField = None ->
  let params := otherField ++ "," ++ rawValue in
  let added := fun fn => Ok (AChain (addItem (Validate (Custom fn) false None) c)) in
  applyParamRule (AChain c) field "required_if" params allRules
  = added (RequiredIf field otherField rawValue)
  /\ applyParamRule (AChain c) field "required_unless" params allRules
     = added (RequiredUnless field otherField rawValue)
  /\ applyParamRule (AChain c) field "prohibited_if" params allRules
     = added (ProhibitedIf field otherField rawValue).
Proof.
  intros N params added. subst params added.
  change (otherField ++ "," ++ rawValue)
    with (otherField ++ String "," rawValue).
  unfold applyParamRule. cbn [String.eqb Ascii.eqb Bool.eqb].
  rewrite (indexOf_append _ _ _ N), take_append, drop_append.
  repeat split.
Qed.

(** X10 — on a value that is filled in, [required_if] and
    [required_unless] always pass; on a blank value ([undefined],
    [null] or the empty string) [prohibited_if] always passes and
    exactly one of [required_if] and [required_unless] fails, the
    message naming the raw value as written in the rule. *)
Theorem conditional_rules_are_exclusive {RT : JsRuntime} {LIB : Library}
  (field otherField rawValue : string) (v : value) (b : record) :
  let required_if := runClosure (RequiredIf field otherField rawValue) v b in
  let required_unless :=
    runClosure (RequiredUnless field otherField rawValue) v b in
  let prohibited_if :=
    runClosure (ProhibitedIf field otherField rawValue) v b in
  StringOf (expected rawValue) = rawValue
  /\ if blank v
     then prohibited_if = Accept
          /\ ((required_if
               = Raise (field ++ " is required when " ++ otherField ++ " is "
                              ++ rawValue)
               /\ required_unless = Accept)
              \/ (required_if = Accept
                  /\ required_unless
                     = Raise (field ++ " is required unless " ++ otherField
                                    ++ " is " ++ rawValue)))
     else required_if = Accept /\ required_unless = Accept.
Proof.
  intros required_if required_unless prohibited_if.
  assert (S : StringOf (expected rawValue) = rawValue).
  { unfold expected.
    destruct (String.eqb_spec rawValue "true") as [->|_]; [reflexivity|].
    destruct (String.eqb_spec rawValue "false") as [->|_]; reflexivity. }
  split; [exact S|].
  subst required_if required_unless prohibited_if. cbn [runClosure].
  rewrite S.
  destruct (blank v), (equals (bodyAt otherField b) (expected rawValue));
    cbn [andb negb]; auto.
Qed.

(** X11 — after [default:v] the value is never [undefined] or [null];
    it is blank only when the default itself is the empty string, and
    applying the default twice changes nothing more. *)
Theorem default_leaves_no_gap {RT : JsRuntime}
  (params : string) (v : value) :
  let filled := runSanitizer (DefaultTo params) v in
  filled <> VUndefined
  /\ filled <> VNull
  /\ (blank filled = true <-> blank v = true /\ params = "")
  /\ runSanitizer (DefaultTo params) filled = filled.
Proof.
  cbn [runSanitizer].
  destruct v as [| | | | [|a s] | |]; cbn [blank];
    repeat split; try discriminate; try tauto;
    destruct params; cbn [blank]; intuition (try discriminate; auto).
Qed.

(** X12 — empty rules, as a string or as an array, compile to a chain
    without items: it reports nothing and leaves every record as it
    is.  An empty configuration compiles to no validator. *)
Theorem empty_rules_accept_everything {RT : JsRuntime} {LIB : Library}
  (field : string) (b : record) :
  compileField field (SpecString "") = Ok (AChain (check field))
  /\ compileField field (SpecArray []) = Ok (AChain (check field))
  /\ run (check field) b = (b, [])
  /\ handle [check field] b = (b, Next)
  /\ makeValidators [] = Ok [].
Proof. repeat split. Qed.


Section LabelFacts.

Context {RT : JsRuntime} {LIB : Library}.

Lemma labelled_message (field rest : string) : labelled field (field ++ rest).
Proof. now exists rest. Qed.

(** Each method sequence of [index.ts] adds items that report under
    the name of the field. *)
Ltac solve_labels H F :=
  cbn [call] in H; injection H as <-;
  unfold isEmail, isString, isInt, isFloat, isBoolean, isURL, isArray,
    isObject, isJSON, isUUID, isAlpha, isAlphanumeric, isLength, matches,
    custom;
  rewrite ?withMessage_validation, ?withMessage_notEmpty;
  unfold validation, bail, trim, customSanitizer, addItem, optional,
    optionalNullable;
  cbn [stack];
  rewrite ?Forall_app;
  repeat match goal with
         | |- _ /\ _ => split
         | |- Forall _ (stack _) => exact F
         | |- Forall _ (_ :: _) => constructor
         | |- Forall _ [] => constructor
         end;
  cbn [wellItem]; first [apply labelled_message | reflexivity | exact I].

Lemma applyParamRule_labels (c c' : chain) (field ruleName params : string)
  (allRules : list string) :
  applyParamRule (AChain c) field ruleName params allRules
  = Ok (AChain c') ->
  Forall (wellItem field) (stack c) -> Forall (wellItem field) (stack c').
Proof.
  unfold applyParamRule.
  repeat match goal with
         | |- context [if ?b then _ else _] => destruct b
         | |- context [match Js.indexOf ?a ?b with _ => _ end] =>
             destruct (Js.indexOf a b)
         end.
  all: intros H F; try discriminate H.
  all: try (injection H as <-; exact F).
  all: solve_labels H F.
Qed.

Lemma own_labels (rule : string) (fn : slot -> string -> result slot)
  (c c' : chain) (field : string) :
  assoc rule basicValidators = Some fn ->
  fn (AChain c) field = Ok (AChain c') ->
  Forall (wellItem field) (stack c) -> Forall (wellItem field) (stack c').
Proof.
  unfold basicValidators. cbn [assoc].
  repeat match goal with
         | |- context [if String.eqb ?k rule then _ else _] =>
             destruct (String.eqb_spec k rule) as [<-|_]
         end.
  all: intros E H F; try discriminate E; injection E as <-.
  all: first [solve_labels H F
             | cbn [call] in H; injection H as <-; exact F].
Qed.

Lemma applyRule_labels (field : string) (allRules : list string)
  (c c' : chain) (rule : string) :
  applyRule field allRules (AChain c) rule = Ok (AChain c') ->
  Forall (wellItem field) (stack c) -> Forall (wellItem field) (stack c').
Proof.
  unfold applyRule, lookup.
  destruct (Js.contains ":" rule).
  - destruct (Js.indexOf ":" rule); [apply applyParamRule_labels|].
    intros H F. now injection H as <-.
  - destruct (assoc rule basicValidators) as [fn|] eqn:E;
      [now apply (own_labels rule)|].
    destruct (assoc rule Object_prototype); intros H F.
    + apply callInherited_chain in H. now injection H as <-.
    + now injection H as <-.
Qed.

Lemma rules_label (field : string) (allRules rules : list string)
  (c c' : chain) :
  forEach (applyRule field allRules) rules (AChain c) = Ok (AChain c') ->
  Forall (wellItem field) (stack c) -> Forall (wellItem field) (stack c').
Proof.
  revert c. induction rules as [|rule rules IH]; intros c; cbn [forEach].
  - intros H F. now injection H as <-.
  - destruct (applyRule field allRules (AChain c) rule) as [v1|] eqn:E;
      cbn [bind]; [|discriminate].
    intros H F. destruct (rules_grow _ _ _ _ _ H) as (c1 & -> & _).
    apply (IH c1 H). now apply (applyRule_labels _ _ _ _ _ E).
Qed.

Lemma failures_labelled (field : string) (v : validator) (n : bool)
  (m : option string) (cur : value) (b : record) :
  wellItem field (Validate v n m) ->
  Forall (labelled field) (failures v n m cur b).
Proof.
  intros W. destruct m as [m|].
  - cbn [wellItem] in W. unfold failures.
    destruct (onValue v) as [p|].
    + destruct (p cur b), n; repeat constructor; try assumption.
    + apply Forall_forall. intros x Hx. apply in_map_iff in Hx.
      now destruct Hx as (_ & <- & _).
  - cbn [wellItem] in W.
    destruct v; try contradiction W. destruct fn, n; try contradiction W.
    all: subst field0.
    all: unfold failures; cbn [onValue runClosure].
    all: repeat match goal with
           | |- context [if ?c then _ else _] => destruct c
           end.
    all: repeat constructor; apply labelled_message.
Qed.

Lemma runItems_labelled (field : string) (o : optionality)
  (items : list item) (st : state) :
  Forall (wellItem field) items ->
  Forall (fun e => labelled field (msg e)) (errors st) ->
  Forall (fun e => labelled field (msg e))
    (errors (runItems field o items st)).
Proof.
  intros W. revert st. induction W as [|i items Wi _ IH]; intros st F;
    [exact F|].
  change (runItems field o (i :: items) st)
    with (runItems field o items (runItem field o st i)).
  apply IH. unfold runItem.
  destruct (halted st || skipped o (get field (body st))); [exact F|].
  destruct i as [v n m| |]; cbn [errors]; try exact F.
  apply Forall_app. split; [exact F|].
  apply Forall_forall. intros e He. apply in_map_iff in He.
  destruct He as (x & <- & Hx). cbn [msg].
  pose proof (failures_labelled field v n m (get field (body st)) (body st) Wi)
    as L.
  rewrite Forall_forall in L. now apply L.
Qed.

End LabelFacts.

(** X14 — when all the rules of a field are strings, every item of its
    chain reports under the field's name, and every message a run of
    the chain produces starts with that name. *)
Theorem messages_start_with_the_field {RT : JsRuntime} {LIB : Library}
  (field : string) (fieldRules : list string) (c : chain) (b : record) :
  build field fieldRules [] = Ok (AChain c) ->
  Forall (wellItem field) (stack c)
  /\ Forall (fun e => err_path e = field /\ labelled field (msg e))
       (snd (run c b)).
Proof.
  intros B. unfold build in B.
  destruct (forEach _ fieldRules _) as [[c1|o]|] eqn:E; cbn [bind forEach] in B;
    try discriminate B.
  injection B as <-.
  assert (W : Forall (wellItem field) (stack c1))
    by (apply (rules_label _ _ _ _ _ E); constructor).
  destruct (rules_grow _ _ _ _ _ E) as (c0 & Ec & [P _] & _).
  injection Ec as <-. cbn [path] in P.
  split; [exact W|].
  pose proof (run_paths c1 b) as R1. rewrite P in R1.
  assert (R2 : Forall (fun e => labelled field (msg e)) (snd (run c1 b))).
  { unfold run. cbn [snd]. rewrite P. apply runItems_labelled; [exact W|].
    constructor. }
  rewrite Forall_forall in *. intros e He. split; auto.
Qed.

(* ================================================================== *)
(** * Further properties of sanitize.ts *)

Section ReachFacts.

Import Regex.

Lemma suffix_refl (s : string) : suffix s s.
Proof. now exists EmptyString. Qed.

Lemma append_assoc (a b c : string) : ((a ++ b) ++ c = a ++ (b ++ c))%string.
Proof. induction a; simpl; [reflexivity | now f_equal]. Qed.

Lemma suffix_trans (a b c : string) : suffix a b -> suffix b c -> suffix a c.
Proof.
  intros [p ->] [q ->]. exists (q ++ p). now rewrite append_assoc.
Qed.

Lemma suffix_tail (a : ascii) (s : string) : suffix s (String a s).
Proof. now exists (String a EmptyString). Qed.

Lemma starLoop_reaches (m : matcher) (k : cont) (fuel pos : nat)
  (s rest : string) :
  reaches m ->
  starLoop m k fuel pos s = Some rest ->
  exists p t, suffix t s /\ k p t = Some rest.
Proof.
  intros M. revert pos s.
  induction fuel as [|fuel IH]; intros pos s; cbn [starLoop].
  - intros H. exists pos, s. split; [apply suffix_refl | exact H].
  - destruct (m pos s _) as [r|] eqn:E.
    + intros H. injection H as ->. apply M in E.
      destruct E as (p & t & St & H).
      destruct (String.length t <? String.length s)%nat; [|discriminate].
      destruct (IH _ _ H) as (p' & t' & St' & H').
      exists p', t'. split; [now apply (suffix_trans _ t) | exact H'].
    + intros H. exists pos, s. split; [apply suffix_refl | exact H].
Qed.

Lemma exec_reaches (r : re) : reaches (exec r).
Proof.
  induction r as [| c | r1 IH1 r2 IH2 | r1 IH1 r2 IH2 | r1 IH |];
    intros pos s k rest; cbn [exec].
  - intros H. exists pos, s. split; [apply suffix_refl | exact H].
  - destruct s as [|a s]; [discriminate|].
    destruct (c a); [|discriminate].
    intros H. exists (S pos), s. split; [apply suffix_tail | exact H].
  - intros H. apply IH1 in H. destruct H as (p & t & St & H).
    apply IH2 in H. destruct H as (p' & t' & St' & H).
    exists p', t'. split; [now apply (suffix_trans _ t) | exact H].
  - destruct (exec r1 pos s k) as [x|] eqn:E.
    + intros H. injection H as ->. exact (IH1 _ _ _ _ E).
    + intros H. exact (IH2 _ _ _ _ H).
  - now apply starLoop_reaches.
  - destruct (pos =? 0)%nat; [|discriminate].
    intros H. exists pos, s. split; [apply suffix_refl | exact H].
Qed.

Lemma matchAt_suffix (r : re) (pos : nat) (s rest : string) :
  matchAt r pos s = Some rest -> suffix rest s.
Proof.
  intros H. apply exec_reaches in H. destruct H as (p & t & St & H).
  now injection H as <-.
Qed.

Lemma subsequence_refl (s : string) : subsequence s s.
Proof. induction s; constructor; assumption. Qed.

Lemma subsequence_trans (a b c : string) :
  subsequence a b -> subsequence b c -> subsequence a c.
Proof.
  intros H1 H2. revert a H1.
  induction H2 as [c | x b c _ IH | x b c _ IH]; intros a H1.
  - inversion H1. constructor.
  - inversion H1; subst; constructor; auto.
  - constructor. auto.
Qed.

Lemma suffix_subsequence (t s : string) : suffix t s -> subsequence t s.
Proof.
  intros [pre ->]. induction pre; simpl;
    [apply subsequence_refl | now constructor].
Qed.

Lemma subsequence_length (t s : string) :
  subsequence t s -> String.length t <= String.length s.
Proof. induction 1; simpl; lia. Qed.

Lemma subsequence_lacks (c : ascii) (t s : string) :
  subsequence t s -> Js.contains c s = false -> Js.contains c t = false.
Proof.
  induction 1 as [s | a t s _ IH | a t s _ IH]; [reflexivity | |].
  - rewrite !contains_cons. intros H. apply orb_false_iff in H.
    destruct H as [-> H]. now apply IH.
  - rewrite contains_cons. intros H. apply orb_false_iff in H.
    apply IH, H.
Qed.

Lemma scan_subsequence (r : re) (fuel pos : nat) (s : string) :
  subsequence (scan r fuel pos s) s.
Proof.
  revert pos s. induction fuel as [|fuel IH]; intros pos s; cbn [scan];
    [apply subsequence_refl|].
  assert (K : subsequence
                match s with
                | String a s' => String a (scan r fuel (S pos) s')
                | EmptyString => EmptyString
                end s)
    by (destruct s; constructor; apply IH).
  destruct (matchAt r pos s) as [rest|] eqn:E; [|exact K].
  destruct (String.length rest <? String.length s)%nat; [|exact K].
  apply (subsequence_trans _ rest); [apply IH|].
  apply suffix_subsequence. now apply (matchAt_suffix r pos).
Qed.

Lemma trimStart_subsequence (s : string) : subsequence (Js.trimStart s) s.
Proof.
  induction s as [|a s IH]; simpl; [constructor|].
  destruct (Js.isSpace a); [now constructor | apply subsequence_refl].
Qed.

Lemma trimEnd_subsequence (s : string) : subsequence (Js.trimEnd s) s.
Proof.
  induction s as [|a s IH]; simpl; [constructor|].
  destruct (Js.trimEnd s) as [|b r].
  - destruct (Js.isSpace a); repeat constructor.
  - now constructor.
Qed.

Lemma trim_subsequence (s : string) : subsequence (Js.trim s) s.
Proof.
  unfold Js.trim. apply (subsequence_trans _ (Js.trimStart s));
    [apply trimEnd_subsequence | apply trimStart_subsequence].
Qed.

Lemma suffix_has (c : ascii) (t s : string) :
  suffix t s -> Js.contains c t = true -> Js.contains c s = true.
Proof.
  intros [pre ->] H. induction pre as [|a pre IH]; [exact H|].
  simpl. rewrite contains_cons, IH. apply orb_true_r.
Qed.

Lemma needs_chr (c : ascii) : needs c (Chr c).
Proof.
  intros pos s k rest. unfold Chr. cbn [exec].
  destruct s as [|a s]; [discriminate|].
  destruct (Ascii.eqb c a) eqn:E; [|discriminate].
  intros _. rewrite contains_cons, Ascii.eqb_sym, E. reflexivity.
Qed.

Lemma needs_first (c : ascii) (r1 r2 : re) : needs c r1 -> needs c (Seq r1 r2).
Proof. intros N pos s k rest. cbn [exec]. apply N. Qed.

Lemma needs_then (c : ascii) (r1 r2 : re) : needs c r2 -> needs c (Seq r1 r2).
Proof.
  intros N pos s k rest. cbn [exec]. intros H.
  apply exec_reaches in H. destruct H as (p & t & St & H).
  apply N in H. now apply (suffix_has c t).
Qed.

Lemma scan_unmatched (c : ascii) (r : re) (fuel pos : nat) (s : string) :
  needs c r -> Js.contains c s = false -> scan r fuel pos s = s.
Proof.
  intros N. revert pos s. induction fuel as [|fuel IH]; intros pos s L;
    cbn [scan]; [reflexivity|].
  destruct (matchAt r pos s) as [rest|] eqn:E.
  - apply N in E. congruence.
  - destruct s as [|a s]; [reflexivity|].
    rewrite contains_cons in L. apply orb_false_iff in L.
    f_equal. apply IH, L.
Qed.

Lemma javascriptLink_needs_colon : needs ":" javascriptLink.
Proof.
  unfold javascriptLink. apply needs_then, needs_then, needs_first, needs_chr.
Qed.

Lemma eventHandler_needs_equals (q : ascii) : needs "=" (eventHandler q).
Proof.
  unfold eventHandler.
  apply needs_then, needs_then, needs_then, needs_first, needs_chr.
Qed.

Lemma htmlTag_needs_lt : needs "<" htmlTag.
Proof. unfold htmlTag. apply needs_first, needs_chr. Qed.

End ReachFacts.

(** X15 — [clean] only deletes: what it returns is its argument with
    characters left out, in the same order, so it is never longer than
    its argument. *)
Theorem clean_only_deletes (value : string) :
  subsequence (clean value) value
  /\ String.length (clean value) <= String.length value.
Proof.
  assert (S : subsequence (clean value) value).
  { unfold clean, Regex.remove.
    repeat (eapply subsequence_trans; [apply scan_subsequence|]).
    apply trim_subsequence. }
  split; [exact S | now apply subsequence_length].
Qed.

(** X16 — a text without [<], [:] and [=] is only trimmed. *)
Theorem clean_trims_plain_text (value : string) :
  Js.contains "<" value = false ->
  Js.contains ":" value = false ->
  Js.contains "=" value = false ->
  clean value = Js.trim value.
Proof.
  intros L C E. pose proof (trim_subsequence value) as T.
  unfold clean, Regex.remove.
  rewrite (scan_unmatched ":" javascriptLink)
    by (apply javascriptLink_needs_colon || now apply (subsequence_lacks _ _ value)).
  rewrite (scan_unmatched "=" (eventHandler dquote))
    by (apply eventHandler_needs_equals || now apply (subsequence_lacks _ _ value)).
  rewrite (scan_unmatched "=" (eventHandler squote))
    by (apply eventHandler_needs_equals || now apply (subsequence_lacks _ _ value)).
  apply (scan_unmatched "<" htmlTag);
    [apply htmlTag_needs_lt | now apply (subsequence_lacks _ _ value)].
Qed.

Section ObjectFacts.

Context {RT : JsRuntime}.

Lemma set_all (Q : value -> Prop) (key : string) (v : value) (b : record) :
  Q v ->
  Forall (fun entry => Q (snd entry)) b ->
  Forall (fun entry => Q (snd entry)) (set key v b).
Proof.
  intros Hv. induction 1 as [|[k w] b Hw Hb IH]; cbn [set].
  - now repeat constructor.
  - destruct (String.eqb k key); constructor; assumption.
Qed.

Lemma fold_all (Q : value -> Prop) (g : value -> value) (props acc : record) :
  Forall (fun entry => Q (g (snd entry))) props ->
  Forall (fun entry => Q (snd entry)) acc ->
  Forall (fun entry => Q (snd entry))
    (fold_left (fun o entry => assign (fst entry) (g (snd entry)) o)
       props acc).
Proof.
  intros H. revert acc. induction H as [|[k v] props Hv _ IH]; intros acc A;
    cbn [fold_left]; [exact A|].
  apply IH. unfold assign. cbn [fst snd].
  destruct (k =? "__proto__"); [exact A | now apply set_all].
Qed.

Lemma keys_set (k key : string) (v : value) (b : record) :
  In k (map fst (set key v b)) <-> k = key \/ In k (map fst b).
Proof.
  induction b as [|[k' w] b IH]; cbn [set map fst In].
  - intuition congruence.
  - destruct (String.eqb_spec k' key) as [->|N]; cbn [map fst In].
    + intuition congruence.
    + rewrite IH. intuition congruence.
Qed.

Lemma NoDup_set (key : string) (v : value) (b : record) :
  NoDup (map fst b) -> NoDup (map fst (set key v b)).
Proof.
  induction b as [|[k' w] b IH]; cbn [set map fst]; intros D.
  - repeat constructor. intros [].
  - destruct (String.eqb_spec k' key) as [->|N]; cbn [map fst]; [exact D|].
    inversion D as [|? ? Hn Hd]; subst. constructor; [|auto].
    rewrite keys_set. intros [E|I]; [now apply N | now apply Hn].
Qed.

Lemma fold_keys (g : value -> value) (k : string) (props acc : record) :
  In k (map fst
          (fold_left (fun o entry => assign (fst entry) (g (snd entry)) o)
             props acc))
  <-> In k (map fst acc) \/ (In k (map fst props) /\ k <> "__proto__").
Proof.
  revert acc. induction props as [|[k' v] props IH]; intros acc;
    cbn [fold_left map fst snd In].
  - intuition.
  - rewrite IH. unfold assign.
    destruct (String.eqb_spec k' "__proto__") as [->|N].
    + intuition congruence.
    + rewrite keys_set. intuition congruence.
Qed.

Lemma fold_NoDup (g : value -> value) (props acc : record) :
  NoDup (map fst acc) ->
  NoDup (map fst
           (fold_left (fun o entry => assign (fst entry) (g (snd entry)) o)
              props acc)).
Proof.
  revert acc. induction props as [|[k v] props IH]; intros acc D;
    cbn [fold_left]; [exact D|].
  apply IH. unfold assign. cbn [fst snd].
  destruct (k =? "__proto__"); [exact D | now apply NoDup_set].
Qed.

Lemma set_middle (key : string) (v w : value) (done rest : record) :
  ~ In key (map fst done) ->
  set key v (done ++ (key, w) :: rest)%list = (done ++ (key, v) :: rest)%list.
Proof.
  induction done as [|[k' u] done IH]; cbn [set app map fst In]; intros N.
  - now rewrite String.eqb_refl.
  - destruct (String.eqb_spec k' key) as [->|_];
      [exfalso; apply N; now left|].
    rewrite IH; [reflexivity | intros X; apply N; now right].
Qed.

(** Assigning to an object its own keys, with new values, changes the
    values where they stand. *)
Lemma ObjectAssign_in_place (g : value -> value) (obj done : record) :
  NoDup (map fst done ++ map fst obj) ->
  ~ In "__proto__" (map fst obj) ->
  ObjectAssign (done ++ obj)%list
    (map (fun entry => (fst entry, g (snd entry))) obj)
  = (done ++ map (fun entry => (fst entry, g (snd entry))) obj)%list.
Proof.
  unfold ObjectAssign. revert done.
  induction obj as [|[k v] obj IH]; intros done D P; cbn [map fold_left fst snd];
    [reflexivity|].
  cbn [map fst In] in D, P.
  assert (N : ~ In k (map fst done)).
  { apply NoDup_remove_2 in D. intros X. apply D, in_or_app. now left. }
  unfold assign at 2. cbn [fst snd].
  destruct (String.eqb_spec k "__proto__") as [->|_];
    [exfalso; apply P; now left|].
  rewrite (set_middle k (g v) v done obj N).
  change (done ++ (k, g v) :: obj)%list
    with (done ++ [(k, g v)] ++ obj)%list.
  rewrite app_assoc, IH.
  - now rewrite <- app_assoc.
  - rewrite map_app, <- app_assoc. exact D.
  - intros X. apply P. now right.
Qed.

Lemma assignCleaned_in_place {ZT : JsZero} (obj : record) :
  NoDup (map fst obj) ->
  ~ In "__proto__" (map fst obj) ->
  assignCleaned obj = cleanedEntries obj.
Proof.
  intros D P. unfold assignCleaned. rewrite (deepClean_object obj P D).
  exact (ObjectAssign_in_place deepClean obj [] D P).
Qed.

Lemma falsy_is_clean {ZT : JsZero} (v : value) :
  truthy v = false -> deepClean v = v.
Proof.
  destruct v as [| | b | n | s | items | props]; cbn [truthy deepClean];
    try reflexivity; try discriminate.
  destruct (String.eqb_spec s "") as [->|_]; [reflexivity | discriminate].
Qed.

Lemma leaves_tagless (v : value) : Forall tagless (strings (deepClean v)).
Proof.
  induction v as [| | b | n | s | items IH | props IH]
    using value_induction; cbn [deepClean strings]; try constructor.
  - apply clean_strips.
  - constructor.
  - apply Forall_flat_map, Forall_map. exact IH.
  - apply Forall_flat_map.
    apply (fold_all (fun w => Forall tagless (strings w)) deepClean);
      [exact IH | constructor].
Qed.

Lemma names_shape (v : value) : names (shape v) = names v.
Proof.
  induction v as [| | b | n | s | items IH | props IH]
    using value_induction; cbn [shape names]; try reflexivity.
  - induction IH as [|x items Hx _ IHitems]; [reflexivity|].
    cbn [map flat_map]. now rewrite Hx, IHitems.
  - induction IH as [|entry props Hx _ IHprops]; [reflexivity|].
    cbn [map flat_map fst snd]. now rewrite Hx, IHprops.
Qed.

(** Names are copied, not cleaned. *)
Lemma names_kept (v : value) : plain v -> names (deepClean v) = names v.
Proof.
  intros P. rewrite <- (names_shape (deepClean v)), <- (names_shape v).
  now rewrite deepClean_keeps_shape.
Qed.

End ObjectFacts.

(** X17 — every string value in what [deepClean] returns, at any
    depth of arrays and objects, is free of the character [<].
    Property names are another matter: they are copied, not cleaned, so
    on plain data the names of the result are the names of the
    argument, whatever characters they hold. *)
Theorem deepClean_leaves_no_tag_opener {RT : JsRuntime} (obj : value) :
  Forall (fun s => Js.contains "<" s = false) (strings (deepClean obj))
  /\ (plain obj -> names (deepClean obj) = names obj).
Proof. split; [exact (leaves_tagless obj) | apply names_kept]. Qed.

(** X18 — on plain data [deepClean] keeps the containers, their
    lengths and their keys in order; the result is plain data again,
    and its strings are the cleaned strings of the argument, in the
    same order. *)
Theorem deepClean_cleans_leaves_in_place {RT : JsRuntime} (obj : value) :
  plain obj ->
  shape (deepClean obj) = shape obj
  /\ plain (deepClean obj)
  /\ strings (deepClean obj) = map clean (strings obj).
Proof.
  intros Hp. split; [now apply deepClean_keeps_shape|].
  induction obj as [| | b | n | s | items IH | props IH]
    using value_induction; try (split; [exact I | reflexivity]).
  - cbn [deepClean strings].
    induction IH as [|x items Hx _ IHitems]; [split; [exact I | reflexivity]|].
    destruct Hp as [Px Pitems].
    destruct (Hx Px) as [A B]. destruct (IHitems Pitems) as [A' B'].
    split; [split; assumption|].
    cbn [map flat_map]. now rewrite map_app, B, B'.
  - destruct Hp as (D & N & Hp).
    rewrite (deepClean_object props N D). cbn [strings plain].
    rewrite map_map. cbn [fst].
    split; [split; [exact D | split; [exact N|]]|].
    + clear D N. induction IH as [|entry props Hx _ IHprops]; [exact I|].
      destruct Hp as [Px Pprops]. cbn [map snd].
      split; [apply (Hx Px) | now apply IHprops].
    + clear D N. induction IH as [|entry props Hx _ IHprops]; [reflexivity|].
      destruct Hp as [Px Pprops]. cbn [map flat_map snd].
      rewrite map_app, IHprops by assumption.
      f_equal. apply (Hx Px).
Qed.

(** X19 — [deepClean] of an object is an object with the keys of its
    argument other than [__proto__], each once. *)
Theorem deepClean_drops_only_proto {RT : JsRuntime} (props : record) :
  exists cleaned,
    deepClean (VObj props) = VObj cleaned
    /\ NoDup (map fst cleaned)
    /\ forall key,
         In key (map fst cleaned)
         <-> In key (map fst props) /\ key <> "__proto__".
Proof.
  eexists. split; [reflexivity|]. split.
  - apply fold_NoDup. constructor.
  - intros key. rewrite fold_keys. cbn [map In]. intuition.
Qed.

(** X20 — the body handed on is [deepClean] of the body received,
    whatever it is: the test [if (req.body)] only keeps away values
    that [deepClean] returns as they are.  So every string value of
    the body handed on is free of [<]; the property names of a plain
    body are handed on as they came, uncleaned. *)
Theorem middleware_cleans_every_body {RT : JsRuntime} {ZT : JsZero}
  (req : Request) :
  req_body (sanitizeMiddleware req) = deepClean (req_body req)
  /\ Forall (fun s => Js.contains "<" s = false)
       (strings (req_body (sanitizeMiddleware req)))
  /\ (plain (req_body req) ->
      names (req_body (sanitizeMiddleware req)) = names (req_body req)).
Proof.
  assert (E : req_body (sanitizeMiddleware req) = deepClean (req_body req)).
  { cbn [sanitizeMiddleware req_body].
    destruct (truthy (req_body req)) eqn:T; [reflexivity|].
    symmetry. now apply falsy_is_clean. }
  split; [exact E|]. rewrite E.
  split; [apply leaves_tagless | apply names_kept].
Qed.

(** X21 — a query and route parameters without the key [__proto__]
    keep their keys in order, each value replaced by its cleaned
    value. *)
Theorem middleware_cleans_query_and_params_in_place
  {RT : JsRuntime} {ZT : JsZero} (body : value) (query params : record) :
  NoDup (map fst query) -> ~ In "__proto__" (map fst query) ->
  NoDup (map fst params) -> ~ In "__proto__" (map fst params) ->
  sanitizeMiddleware
    {| req_body := body; req_query := Some query; req_params := Some params |}
  = {| req_body := deepClean body;
       req_query := Some (cleanedEntries query);
       req_params := Some (cleanedEntries params) |}.
Proof.
  intros Dq Pq Dp Pp. unfold sanitizeMiddleware.
  cbn [req_body req_query req_params option_map].
  rewrite (assignCleaned_in_place query Dq Pq),
    (assignCleaned_in_place params Dp Pp).
  f_equal. destruct (truthy body) eqn:T; [reflexivity|].
  symmetry. now apply falsy_is_clean.
Qed.

(* ================================================================== *)
(** * The further properties at concrete inputs *)

Section MoreExamples.

Import IntegerHost.
Import IntegerZero.

(** The five fields of [testRules]. *)
Lemma one_validator_per_field_witness :
  makeValidators testRules = Ok testValidators
  /\ chains testValidators = Some testChains
  /\ List.length testValidators = 5
  /\ map path testChains = ["name"; "email"; "age"; "role"; "nickname"].
Proof.
  split; [reflexivity|]. split; [reflexivity|].
  exact (one_validator_per_field testRules testValidators testChains
           eq_refl eq_refl).
Defined.

(** The second field names [__proto__], which cannot be called. *)
Lemma makeValidators_all_or_nothing_witness :
  compileField "a" (SpecString "required")
  = Ok (AChain {| path := "a";
                  stack := [Validate IsEmpty true (Some "a is required");
                            Bail];
                  skips := Mandatory |})
  /\ compileField "b" (SpecString "__proto__") = Throw TypeError
  /\ makeValidators
       [("a", SpecString "required"); ("b", SpecString "__proto__");
        ("c", SpecString "email")]
     = Throw TypeError.
Proof.
  split; [reflexivity|]. split; [reflexivity|].
  apply (proj2 (proj2
           (makeValidators_all_or_nothing
              [("a", SpecString "required"); ("b", SpecString "__proto__");
               ("c", SpecString "email")]))
           [("a", SpecString "required")] ("b", SpecString "__proto__")
           [("c", SpecString "email")] TypeError eq_refl);
    [|reflexivity].
  constructor; [|constructor]. eexists. reflexivity.
Defined.

Lemma build_succeeds_witness :
  (forall rule, In rule ["required"; "string"; "min:3"] ->
                assoc rule Object_prototype = None)
  /\ exists c,
       build "name" ["required"; "string"; "min:3"] [] = Ok (AChain c)
       /\ path c = "name".
Proof.
  assert (O : forall rule, In rule ["required"; "string"; "min:3"] ->
                           assoc rule Object_prototype = None)
    by (intros rule [<-|[<-|[<-|[]]]]; reflexivity).
  split; [exact O|].
  apply (build_succeeds "name" ["required"; "string"; "min:3"] [] O).
  intros rule i [<-|[<-|[<-|[]]]]; simpl; intros [= <-]; discriminate.
Defined.

(** [toString] after [required]. *)
Lemma inherited_name_spoils_field_witness :
  In "toString" ["required"; "toString"]
  /\ harmful "toString"
  /\ build "name" ["required"; "toString"] [] <> Ok (AChain (check "name")).
Proof.
  assert (H : harmful "toString")
    by (exists P_toString; split; [reflexivity | discriminate]).
  split; [simpl; tauto|]. split; [exact H|].
  exact (inherited_name_spoils_field "name" "toString"
           ["required"; "toString"] [] (check "name")
           (or_intror (or_introl eq_refl)) H).
Defined.

(** [length:5] *)
Lemma single_bound_has_no_maximum_witness :
  Js.indexOf "," "5" = None
  /\ applyRule "code" ["length:5"] (AChain (check "code")) "length:5"
     = Ok (AChain
             {| path := "code";
                stack := [Validate
                            (IsLength {| min := Some (Some 5%Z);
                                         max := None |})
                            false
                            (Some "code must be between 5 and undefined characters")];
                skips := Mandatory |}).
Proof.
  split; [reflexivity|].
  exact (proj1 (single_bound_has_no_maximum (check "code") "code" "5"
                  ["length:5"] eq_refl)).
Defined.

(** [regex:^a:b$] has two colons. *)
Lemma only_the_first_colon_splits_witness :
  Js.indexOf ":" "regex" = None
  /\ Js.indexOf ":" "regex:^a:b$" = Some 5
  /\ applyRule "t" [] (AChain (check "t")) "regex:^a:b$"
     = applyParamRule (AChain (check "t")) "t" "regex" "^a:b$" [].
Proof.
  split; [reflexivity|].
  exact (only_the_first_colon_splits "t" "regex" "^a:b$" []
           (AChain (check "t")) eq_refl).
Defined.

(** [required_if:role,a,b] *)
Lemma conditional_rules_split_at_first_comma_witness :
  Js.indexOf "," "role" = None
  /\ applyParamRule (AChain (check "taxId")) "taxId" "required_if" "role,a,b" []
     = Ok (AChain
             (addItem
                (Validate (Custom (RequiredIf "taxId" "role" "a,b")) false None)
                (check "taxId"))).
Proof.
  split; [reflexivity|].
  exact (proj1 (conditional_rules_split_at_first_comma (check "taxId")
                  "taxId" "role" "a,b" [] eq_refl)).
Defined.


(** The chain of [name] in [testRules], on an empty body. *)
Lemma messages_start_with_the_field_witness :
  build "name" ["required"; "string"] []
  = Ok (AChain (nth 0 testChains (check "")))
  /\ Forall (fun e => err_path e = "name" /\ labelled "name" (msg e))
       (snd (run (nth 0 testChains (check "")) [])).
Proof.
  split; [reflexivity|].
  exact (proj2 (messages_start_with_the_field "name" ["required"; "string"]
                  (nth 0 testChains (check "")) [] eq_refl)).
Defined.

Lemma clean_trims_plain_text_witness :
  Js.contains "<" "  hello world  " = false
  /\ Js.contains ":" "  hello world  " = false
  /\ Js.contains "=" "  hello world  " = false
  /\ clean "  hello world  " = "hello world".
Proof.
  repeat (split; [reflexivity|]).
  exact (clean_trims_plain_text "  hello world  " eq_refl eq_refl eq_refl).
Defined.

(** A user with a name in bold and two tags. *)
Lemma deepClean_cleans_leaves_in_place_witness :
  plain (VObj [("name", VStr "<b>Bob</b>");
               ("tags", VArr [VStr " a "; VStr "b"])])
  /\ strings
       (deepClean (VObj [("name", VStr "<b>Bob</b>");
                         ("tags", VArr [VStr " a "; VStr "b"])]))
     = ["Bob"; "a"; "b"].
Proof.
  assert (P : plain (VObj [("name", VStr "<b>Bob</b>");
                           ("tags", VArr [VStr " a "; VStr "b"])])).
  { cbn. split; [repeat constructor; simpl; intuition discriminate|].
    split; [intuition discriminate | tauto]. }
  split; [exact P|].
  exact (proj2 (proj2
           (deepClean_cleans_leaves_in_place
              (VObj [("name", VStr "<b>Bob</b>");
                     ("tags", VArr [VStr " a "; VStr "b"])]) P))).
Defined.

(** A comment whose key and value both hold a tag. *)
Lemma deepClean_leaves_no_tag_opener_witness :
  plain (VObj [("<b>", VStr "<i>tea</i>")])
  /\ deepClean (VObj [("<b>", VStr "<i>tea</i>")])
     = VObj [("<b>", VStr "tea")]
  /\ names (deepClean (VObj [("<b>", VStr "<i>tea</i>")])) = ["<b>"].
Proof.
  assert (P : plain (VObj [("<b>", VStr "<i>tea</i>")])).
  { cbn. split; [repeat constructor; simpl; intuition|].
    split; [intuition discriminate | tauto]. }
  split; [exact P|]. split; [reflexivity|].
  exact (proj2 (deepClean_leaves_no_tag_opener
                  (VObj [("<b>", VStr "<i>tea</i>")])) P).
Defined.

(** The same comment as the body of a request. *)
Lemma middleware_cleans_every_body_witness :
  plain (VObj [("<b>", VStr "<i>tea</i>")])
  /\ names
       (req_body
          (sanitizeMiddleware
             {| req_body := VObj [("<b>", VStr "<i>tea</i>")];
                req_query := None; req_params := None |}))
     = ["<b>"].
Proof.
  assert (P : plain (VObj [("<b>", VStr "<i>tea</i>")])).
  { cbn. split; [repeat constructor; simpl; intuition|].
    split; [intuition discriminate | tauto]. }
  split; [exact P|].
  exact (proj2 (proj2
           (middleware_cleans_every_body
              {| req_body := VObj [("<b>", VStr "<i>tea</i>")];
                 req_query := None; req_params := None |})) P).
Defined.

(** A search query and a route parameter. *)
Lemma middleware_cleans_query_and_params_in_place_witness :
  NoDup (map fst [("q", VStr "<i>tea</i>"); ("page", VStr "2")])
  /\ ~ In "__proto__" (map fst [("q", VStr "<i>tea</i>"); ("page", VStr "2")])
  /\ NoDup (map fst [("id", VStr " 7 ")])
  /\ ~ In "__proto__" (map fst [("id", VStr " 7 ")])
  /\ sanitizeMiddleware
       {| req_body := VUndefined;
          req_query := Some [("q", VStr "<i>tea</i>"); ("page", VStr "2")];
          req_params := Some [("id", VStr " 7 ")] |}
     = {| req_body := VUndefined;
          req_query := Some [("q", VStr "tea"); ("page", VStr "2")];
          req_params := Some [("id", VStr "7")] |}.
Proof.
  assert (Dq : NoDup (map fst [("q", VStr "<i>tea</i>"); ("page", VStr "2")]))
    by (repeat constructor; simpl; intuition discriminate).
  assert (Pq : ~ In "__proto__"
                 (map fst [("q", VStr "<i>tea</i>"); ("page", VStr "2")]))
    by (simpl; intuition discriminate).
  assert (Dp : NoDup (map fst [("id", VStr " 7 ")]))
    by (repeat constructor; simpl; intuition).
  assert (Pp : ~ In "__proto__" (map fst [("id", VStr " 7 ")]))
    by (simpl; intuition discriminate).
  split; [exact Dq|]. split; [exact Pq|]. split; [exact Dp|].
  split; [exact Pp|].
  exact (middleware_cleans_query_and_params_in_place VUndefined
           [("q", VStr "<i>tea</i>"); ("page", VStr "2")]
           [("id", VStr " 7 ")] Dq Pq Dp Pp).
Defined.

End MoreExamples.
